(** * Positronic data collection: teleoperation tracker, control loop, wiring

    A shallow embedding of [positronic/data_collection.py] and
    [positronic/wire.py].

    - [geom] (rigid transforms) is imported by the sources but is not part of
      them: it is taken through the interface [Geometry], whose laws
      ([GeometryLaws]) are those of exact arithmetic.  Floating-point rounding
      is not modelled.
    - [positronic.utils.buttons.ButtonHandler] is likewise taken through the
      interface [ButtonHandlerOps].
    - [pimm] receivers and emitters are modelled by what the loop observes of
      them: a receiver's [value] is an [option] ([None] stands for
      [pimm.NoValueException]), [read()] yields a [Message], and every
      [emit] appends an event to the trace of the tick. *)

From Stdlib Require Import ZArith QArith List String Bool Lia.
Import ListNotations.
Local Open Scope string_scope.
Local Open Scope list_scope.

(* ================================================================== *)
(** ** geom: the interface the tracker relies on *)

Class Geometry : Type := {
  vec : Type;                       (* Transform3D.translation *)
  rot : Type;                       (* Transform3D.rotation *)
  vzero : vec;
  vadd : vec -> vec -> vec;         (* numpy [+] *)
  vneg : vec -> vec;                (* numpy unary [-] *)
  rone : rot;
  rmul : rot -> rot -> rot;         (* Rotation [*] *)
  rinv : rot -> rot;                (* Rotation [.inv] *)
  ract : rot -> vec -> vec          (* a rotation applied to a vector *)
}.

(** Exact-arithmetic laws: translations form a commutative group and
    rotations a group. *)
Class GeometryLaws (G : Geometry) : Prop := {
  vadd_assoc : forall a b c : vec, vadd a (vadd b c) = vadd (vadd a b) c;
  vadd_comm : forall a b : vec, vadd a b = vadd b a;
  vadd_0_l : forall a : vec, vadd vzero a = a;
  vadd_neg_r : forall a : vec, vadd a (vneg a) = vzero;
  rmul_assoc : forall p q r : rot, rmul p (rmul q r) = rmul (rmul p q) r;
  rmul_1_l : forall p : rot, rmul rone p = p;
  rmul_1_r : forall p : rot, rmul p rone = p;
  rmul_inv_r : forall p : rot, rmul p (rinv p) = rone;
  rmul_inv_l : forall p : rot, rmul (rinv p) p = rone
}.

Section Transform.
Context {G : Geometry}.

Record Transform3D : Type := mkTransform3D {
  translation : vec;
  rotation : rot
}.

(** Modelled from the spec: [geom.Transform3D()] with no arguments, the
    value of the class attributes [_offset] and [_teleop_t]; the identity
    transform.  ([OperatorPosition.FRONT], built from a rotation alone, is
    commented as a pure change of axes, so the default translation is
    zero.) *)
Definition Transform3D_default : Transform3D :=
  mkTransform3D vzero rone.

(** Modelled from the spec: [geom.Transform3D.__mul__], composition of
    rigid transforms ("apply [a]'s frame to [b]"). *)
Definition t3d_mul (a b : Transform3D) : Transform3D :=
  mkTransform3D (vadd (translation a) (ract (rotation a) (translation b)))
                (rmul (rotation a) (rotation b)).

(** Modelled from the spec: [geom.Transform3D.inv]. *)
Definition t3d_inv (a : Transform3D) : Transform3D :=
  mkTransform3D (vneg (ract (rinv (rotation a)) (translation a)))
                (rinv (rotation a)).
End Transform.

(* ================================================================== *)
(** ** class _Tracker *)

Section Tracker.
Context {G : Geometry}.

Record _Tracker : Type := mk_Tracker {
  _operator_position : option Transform3D;
  on : bool;
  _offset : Transform3D;
  _teleop_t : Transform3D
}.

(** [@property umi_mode]: [self._operator_position is None]. *)
Definition umi_mode (self : _Tracker) : bool :=
  match _operator_position self with
  | None => true
  | Some _ => false
  end.

(** [__init__]: the class attributes [on = False], [_offset] and
    [_teleop_t] are the defaults; [self.on = self.umi_mode]. *)
Definition Tracker_init (operator_position : option Transform3D) : _Tracker :=
  let self := mk_Tracker operator_position false
                         Transform3D_default Transform3D_default in
  mk_Tracker (_operator_position self) (umi_mode self)
             (_offset self) (_teleop_t self).

(** The methods return the new tracker together with what they print. *)
Definition turn_on (self : _Tracker) (robot_pos : Transform3D)
  : _Tracker * list string :=
  if umi_mode self then (self, ["Ignoring tracking on/off in UMI mode"])
  else
    (mk_Tracker (_operator_position self) true
       (mkTransform3D
          (vadd (vneg (translation (_teleop_t self))) (translation robot_pos))
          (rmul (rinv (rotation (_teleop_t self))) (rotation robot_pos)))
       (_teleop_t self),
     ["Starting tracking"]).

Definition turn_off (self : _Tracker) : _Tracker * list string :=
  if umi_mode self then (self, ["Ignoring tracking on/off in UMI mode"])
  else
    (mk_Tracker (_operator_position self) false
                (_offset self) (_teleop_t self),
     ["Stopped tracking"]).

(** [update] returns the new tracker and the target pose. *)
Definition update (self : _Tracker) (tracker_pos : Transform3D)
  : _Tracker * Transform3D :=
  match _operator_position self with
  | None => (self, tracker_pos)
  | Some op =>
      let teleop := t3d_mul (t3d_mul op tracker_pos) (t3d_inv op) in
      (mk_Tracker (_operator_position self) (on self) (_offset self) teleop,
       mkTransform3D
         (vadd (translation teleop) (translation (_offset self)))
         (rmul (rotation teleop) (rotation (_offset self))))
  end.

(** The operator pose mapped into the robot frame, as [update] stores it. *)
Definition mapped (op tracker_pos : Transform3D) : Transform3D :=
  t3d_mul (t3d_mul op tracker_pos) (t3d_inv op).

(** A call on the tracker, for sequences of calls. *)
Inductive TrackerCall : Type :=
| CallTurnOn (robot_pos : Transform3D)
| CallTurnOff
| CallUpdate (tracker_pos : Transform3D).

Definition call (self : _Tracker) (c : TrackerCall) : _Tracker :=
  match c with
  | CallTurnOn p => fst (turn_on self p)
  | CallTurnOff => fst (turn_off self)
  | CallUpdate p => fst (update self p)
  end.

Definition calls (self : _Tracker) (cs : list TrackerCall) : _Tracker :=
  fold_left call cs self.

(** [turn_on] called [n] times in a row with the same robot pose. *)
Fixpoint turn_on_times (n : nat) (self : _Tracker) (robot_pos : Transform3D)
  : _Tracker :=
  match n with
  | O => self
  | S k => turn_on_times k (fst (turn_on self robot_pos)) robot_pos
  end.
End Tracker.

(* ================================================================== *)
(** ** Exceptions and commands *)

Inductive Exn : Type :=
| NoValueException      (* pimm.NoValueException *)
| IndexError
| KeyError
| AttributeError
| ValueError (msg : string).

(** A dict of metadata: keys and values in insertion order. *)
Definition Metadata : Type := list (string * string).

Inductive DsWriterCommandType : Type :=
| START_EPISODE
| STOP_EPISODE
| ABORT_EPISODE.

Record DsWriterCommand : Type := mkDsWriterCommand {
  cmd_type : DsWriterCommandType;
  cmd_metadata : Metadata
}.

(** [DsWriterCommand.ABORT()]. *)
Definition DsWriterCommand_ABORT : DsWriterCommand :=
  mkDsWriterCommand ABORT_EPISODE [].

(** The episode protocol of the recorder, run on a list of commands from
    the recording state [recording]: an episode is started only when none
    is open, and stopped or aborted only when one is.  [Some r] is the
    recording state at the end, [None] a violation. *)
Fixpoint episodes (recording : bool) (cmds : list DsWriterCommandType)
  : option bool :=
  match cmds with
  | [] => Some recording
  | START_EPISODE :: rest => if recording then None else episodes true rest
  | STOP_EPISODE :: rest | ABORT_EPISODE :: rest =>
      if recording then episodes false rest else None
  end.

(* ================================================================== *)
(** ** positronic.utils.buttons.ButtonHandler: the interface the loop uses *)

(** [get_value] is the value the handler holds for a button.  The handler
    asserts that it holds one: that is [has_value] of
    [ButtonHandlerAsserts] below, and [tick_full] is the iteration with
    the assertion. *)
Class ButtonHandlerOps : Type := {
  ButtonHandler : Type;
  ButtonHandler_init : ButtonHandler;
  update_buttons : ButtonHandler -> list (string * Q) -> ButtonHandler;
  just_pressed : ButtonHandler -> string -> bool;
  get_value : ButtonHandler -> string -> Q
}.

(** A button frame: [buttons[side]] is [None] or the array of that side. *)
Definition Buttons : Type := string -> option (list Q).

Section ParseButtons.
Context {B : ButtonHandlerOps}.

(** The dict [mapping] built for one side; an array too short for one of
    the indexes 4, 5, 0, 1, 3 raises [IndexError]. *)
Definition side_mapping (side : string) (arr : list Q)
  : option (list (string * Q)) :=
  match nth_error arr 4, nth_error arr 5, nth_error arr 0,
        nth_error arr 1, nth_error arr 3 with
  | Some a, Some b, Some trigger, Some thumb, Some stick =>
      Some [ ((side ++ "_A")%string, a); ((side ++ "_B")%string, b);
             ((side ++ "_trigger")%string, trigger); ((side ++ "_thumb")%string, thumb);
             ((side ++ "_stick")%string, stick) ]
  | _, _, _, _, _ => None
  end.

Fixpoint parse_sides (sides : list string) (buttons : Buttons)
    (button_handler : ButtonHandler) : ButtonHandler * option Exn :=
  match sides with
  | [] => (button_handler, None)
  | side :: rest =>
      match buttons side with
      | None => parse_sides rest buttons button_handler
      | Some arr =>
          match side_mapping side arr with
          | None => (button_handler, Some IndexError)
          | Some mapping =>
              parse_sides rest buttons (update_buttons button_handler mapping)
          end
      end
  end.

Definition _parse_buttons (buttons : Buttons) (button_handler : ButtonHandler)
  : ButtonHandler * option Exn :=
  parse_sides ["left"; "right"] buttons button_handler.
End ParseButtons.

(* ================================================================== *)
(** ** class DataCollectionController *)

Section Controller.
Context {G : Geometry} {B : ButtonHandlerOps}.

Inductive RobotCommand : Type :=
| Reset                                        (* roboarm.command.Reset() *)
| CartesianPosition (pose : Transform3D).      (* roboarm.command.CartesianPosition *)

(** [roboarm.State], of which the loop reads [ee_pose]. *)
Record RobotState : Type := mkRobotState {
  ee_pose : Transform3D
}.

(** What [self.controller_positions.read()] returns: [updated] and
    [data['right']]; the data is looked at only when [updated].
    [data_right] is the pose of a right controller that has one;
    [FullInput] below has the message whose [data['right']] is [None]. *)
Record Message : Type := mkMessage {
  data_right : Transform3D;
  updated : bool
}.

(** Everything one iteration of the loop observes of the outside. *)
Record TickInput : Type := mkTickInput {
  should_stop_value : bool;                    (* should_stop.value *)
  buttons_receiver_value : option Buttons;     (* self.buttons_receiver.value *)
  robot_state_value : option RobotState;       (* self.robot_state.value *)
  controller_positions_read : Message;         (* self.controller_positions.read() *)
  metadata_getter_result : Metadata            (* what self.metadata_getter() returns *)
}.

(** The observable effects of the loop, in the order they happen. *)
Inductive Event : Type :=
| PrintLine (line : string)
| CallMetadataGetter
| EmitDsAgentCommand (c : DsWriterCommand)     (* self.ds_agent_commands.emit *)
| EmitSound (wav_path : string)                (* self.sound.emit *)
| EmitRobotCommand (c : RobotCommand)          (* self.robot_commands.emit *)
| EmitTargetGrip (v : Q)                       (* self.target_grip.emit *)
| YieldSleep (seconds : Q).                    (* yield pimm.Sleep(seconds) *)

Definition start_wav_path := "positronic/assets/sounds/recording-has-started.wav".
Definition end_wav_path := "positronic/assets/sounds/recording-has-stopped.wav".
Definition abort_wav_path := "positronic/assets/sounds/recording-has-been-aborted.wav".

(** The local variables of [run] that live across iterations. *)
Record LoopState : Type := mkLoopState {
  tracker : _Tracker;
  button_handler : ButtonHandler;
  recording : bool
}.

(** The locals as [run] sets them before the loop. *)
Definition run_init (operator_position : option Transform3D) : LoopState :=
  mkLoopState (Tracker_init operator_position) ButtonHandler_init false.

(** The result of a stretch of code: the state it leaves, the events it
    caused, and the exception it raised, if any. *)
Definition Outcome : Type := (LoopState * list Event * option Exn)%type.

(** The [if]/[elif]/[elif] chain on the three buttons, after
    [_parse_buttons] has updated the handler. *)
Definition handle_edges (inp : TickInput) (st : LoopState) : Outcome :=
  let bh := button_handler st in
  if just_pressed bh "right_B" then
    let op := if negb (recording st) then START_EPISODE else STOP_EPISODE in
    let '(meta, called) :=
      match op with
      | START_EPISODE => (metadata_getter_result inp, [CallMetadataGetter])
      | _ => ([], [])
      end in
    (mkLoopState (tracker st) bh (negb (recording st)),
     called ++
     [ EmitDsAgentCommand (mkDsWriterCommand op meta);
       EmitSound (if negb (recording st) then start_wav_path else end_wav_path) ],
     None)
  else if just_pressed bh "right_A" then
    if on (tracker st) then
      let '(t, printed) := turn_off (tracker st) in
      (mkLoopState t bh (recording st), map PrintLine printed, None)
    else
      match robot_state_value inp with
      | None => (st, [], Some NoValueException)
      | Some rs =>
          let '(t, printed) := turn_on (tracker st) (ee_pose rs) in
          (mkLoopState t bh (recording st), map PrintLine printed, None)
      end
  else if just_pressed bh "right_stick" && negb (umi_mode (tracker st)) then
    let aborting :=
      if recording st
      then [ EmitDsAgentCommand DsWriterCommand_ABORT; EmitSound abort_wav_path ]
      else [] in
    let '(t, printed) := turn_off (tracker st) in
    (mkLoopState t bh false,
     [PrintLine "Resetting robot"] ++ aborting ++ map PrintLine printed
       ++ [EmitRobotCommand Reset],
     None)
  else (st, [], None).

(** Lines 146-151: the grip target, then the controller pose, for a
    handler that holds a value for the right trigger and a message that
    carries a pose for the right controller; [emit_targets_full] below has
    the failures of these lines. *)
Definition emit_targets (inp : TickInput) (st : LoopState)
  : LoopState * list Event :=
  let grip := EmitTargetGrip (get_value (button_handler st) "right_trigger") in
  let cp_msg := controller_positions_read inp in
  if updated cp_msg then
    let '(t, target_robot_pos) := update (tracker st) (data_right cp_msg) in
    (mkLoopState t (button_handler st) (recording st),
     grip :: (if on t
              then [EmitRobotCommand (CartesianPosition target_robot_pos)]
              else []))
  else (st, [grip]).

(** Lines 125-144: the button frame is read and parsed, then the edges
    are handled. *)
Definition read_and_handle (inp : TickInput) (st : LoopState) : Outcome :=
  match buttons_receiver_value inp with
  | None => (st, [], Some NoValueException)
  | Some buttons =>
      let '(bh, raised) := _parse_buttons buttons (button_handler st) in
      let st0 := mkLoopState (tracker st) bh (recording st) in
      match raised with
      | Some e => (st0, [], Some e)
      | None => handle_edges inp st0
      end
  end.

(** The body of the [try] block, up to and including its [yield]. *)
Definition try_body (inp : TickInput) (st : LoopState) : Outcome :=
  let '(st1, ev1, raised) := read_and_handle inp st in
  match raised with
  | Some e => (st1, ev1, Some e)
  | None =>
      let '(st2, ev2) := emit_targets inp st1 in
      (st2, ev1 ++ ev2 ++ [YieldSleep (1 # 1000)], None)
  end.

(** One iteration of the [while] loop: the [try] block and its
    [except pimm.NoValueException] handler.  Any other exception leaves
    the loop. *)
Definition tick (inp : TickInput) (st : LoopState) : Outcome :=
  let '(st', ev, raised) := try_body inp st in
  match raised with
  | Some NoValueException => (st', ev ++ [YieldSleep (1 # 1000)], None)
  | _ => (st', ev, raised)
  end.

(** [run], resumed once per element of [inputs]: the loop ends when
    [should_stop.value] is true or an exception escapes. *)
Fixpoint run_from (inputs : list TickInput) (st : LoopState) : Outcome :=
  match inputs with
  | [] => (st, [], None)
  | inp :: rest =>
      if should_stop_value inp then (st, [], None)
      else
        let '(st1, ev1, raised) := tick inp st in
        match raised with
        | Some e => (st1, ev1, Some e)
        | None =>
            let '(st2, ev2, raised2) := run_from rest st1 in
            (st2, ev1 ++ ev2, raised2)
        end
  end.

Definition run (operator_position : option Transform3D)
    (inputs : list TickInput) : Outcome :=
  run_from inputs (run_init operator_position).

(** The recorder commands among the events, in order. *)
Fixpoint ds_commands (evs : list Event) : list DsWriterCommandType :=
  match evs with
  | [] => []
  | EmitDsAgentCommand c :: rest => cmd_type c :: ds_commands rest
  | _ :: rest => ds_commands rest
  end.

(** The robot commands among the events, in order. *)
Fixpoint robot_commands (evs : list Event) : list RobotCommand :=
  match evs with
  | [] => []
  | EmitRobotCommand c :: rest => c :: robot_commands rest
  | _ :: rest => robot_commands rest
  end.

(** The grip targets among the events, in order. *)
Fixpoint grip_targets (evs : list Event) : list Q :=
  match evs with
  | [] => []
  | EmitTargetGrip v :: rest => v :: grip_targets rest
  | _ :: rest => grip_targets rest
  end.
End Controller.

(* ================================================================== *)
(** ** wire.py *)

Module Wire.

(** A receiver, with what [isinstance(r, pimm.FakeReceiver)] answers. *)
Record Receiver : Type := mkReceiver {
  receiver_id : string;
  is_FakeReceiver : bool
}.

Definition Emitter : Type := string.

Inductive Connection : Type :=
| Connect (emitter : Emitter) (receiver : Receiver)               (* world.connect *)
| ConnectBroadcast (emitter : Emitter) (receivers : list Receiver). (* world.connect_broadcast *)

(** The world, as far as [wire] changes it: the connections made so far,
    oldest first. *)
Definition World : Type := list Connection.

Record Policy : Type := mkPolicy {
  robot_commands : Emitter;
  target_grip : Emitter;
  robot_state : Receiver;
  gripper_state : Receiver;
  frames : string -> Receiver
}.

Record RobotArm : Type := mkRobotArm {
  commands : Receiver;
  state : Emitter
}.

Record Gripper : Type := mkGripper {
  gripper_target_grip : Receiver;
  grip : Emitter
}.

Record Gui : Type := mkGui {
  gui_cameras : string -> Receiver
}.

Inductive TimeMode : Type := CLOCK | MESSAGE.

Record DatasetWriter : Type := mkDatasetWriter {
  writer_id : string
}.

(** Modelled from the spec: [DsWriterAgent], the recorder with "N named
    signal input ports, each independently registered": [add_signal]
    registers a name, and [inputs[name]] is the port of a registered name
    ([KeyError] otherwise).  [port] gives the receiver behind each name. *)
Record DsWriterAgent : Type := mkDsWriterAgent {
  agent_writer : DatasetWriter;
  agent_time_mode : TimeMode;
  port : string -> Receiver;
  signals : list string
}.

Definition add_signal (agent : DsWriterAgent) (name : string) : DsWriterAgent :=
  mkDsWriterAgent (agent_writer agent) (agent_time_mode agent) (port agent)
                  (signals agent ++ [name]).

Definition inputs (agent : DsWriterAgent) (name : string) : option Receiver :=
  if existsb (String.eqb name) (signals agent)
  then Some (port agent name) else None.

(** Code that changes the world and may raise: the world is kept as it
    was when the exception was raised. *)
Definition M (A : Type) : Type := World -> World * (Exn + A).

Definition ret {A : Type} (a : A) : M A := fun w => (w, inr a).

Definition raise {A : Type} (e : Exn) : M A := fun w => (w, inl e).

Definition bind {A C : Type} (c : M A) (k : A -> M C) : M C :=
  fun w =>
    match c w with
    | (w', inl e) => (w', inl e)
    | (w', inr a) => k a w'
    end.

Notation "x <- c ;; k" := (bind c (fun x => k))
  (at level 61, c at next level, right associativity).
Notation "c ;; k" := (bind c (fun _ => k))
  (at level 61, right associativity).

Definition connect (e : Emitter) (r : Receiver) : M unit :=
  fun w => (w ++ [Connect e r], inr tt).

Definition connect_broadcast (e : Emitter) (rs : list Receiver) : M unit :=
  fun w => (w ++ [ConnectBroadcast e rs], inr tt).

(** [d[key]] on a dict that may miss the key. *)
Definition getitem {A : Type} (o : option A) : M A :=
  match o with
  | Some a => ret a
  | None => raise KeyError
  end.

(** [x.attr] on a value that may be [None]. *)
Definition getattr {A : Type} (o : option A) : M A :=
  match o with
  | Some a => ret a
  | None => raise AttributeError
  end.

Definition no_receivers_msg : string :=
  "No receivers have been specified for data collection.".

(** Lines 49-57: the receivers collected for one camera signal, with the
    [FakeReceiver]s filtered out. *)
Definition camera_receivers (policy : Policy) (ds_agent : option DsWriterAgent)
    (gui : option Gui) (signal_name : string) : M (list Receiver) :=
  let receivers := [frames policy signal_name] in
  receivers <-
    match ds_agent with
    | Some agent =>
        r <- getitem (inputs agent signal_name) ;; ret (receivers ++ [r])
    | None => ret receivers
    end ;;
  let receivers :=
    match gui with
    | Some g => receivers ++ [gui_cameras g signal_name]
    | None => receivers
    end in
  ret (filter (fun r => negb (is_FakeReceiver r)) receivers).

(** Lines 60-65: broadcast, unicast, or [ValueError]. *)
Definition connect_camera (emitter : Emitter) (receivers : list Receiver)
  : M unit :=
  if (1 <? List.length receivers)%nat then connect_broadcast emitter receivers
  else if (List.length receivers =? 1)%nat then
    match receivers with
    | r :: _ => connect emitter r
    | [] => raise IndexError
    end
  else raise (ValueError no_receivers_msg).

(** The [for signal_name, emitter in cameras.items()] loop. *)
Fixpoint wire_cameras (policy : Policy) (ds_agent : option DsWriterAgent)
    (gui : option Gui) (cameras : list (string * Emitter)) : M unit :=
  match cameras with
  | [] => ret tt
  | (signal_name, emitter) :: rest =>
      receivers <- camera_receivers policy ds_agent gui signal_name ;;
      connect_camera emitter receivers ;;
      wire_cameras policy ds_agent gui rest
  end.

(** [wire].  [make_port] stands for the receivers the [DsWriterAgent]
    creates; [cameras] is the dict in insertion order, or [None]. *)
Definition wire (make_port : string -> Receiver)
    (policy : Policy) (dataset_writer : option DatasetWriter)
    (cameras : option (list (string * Emitter)))
    (robot_arm : option RobotArm) (gripper : option Gripper)
    (gui : option Gui) (time_mode : TimeMode) : M (option DsWriterAgent) :=
  arm <- getattr robot_arm ;;
  connect (robot_commands policy) (commands arm) ;;
  connect (state arm) (robot_state policy) ;;
  match gripper with
  | Some g =>
      connect (target_grip policy) (gripper_target_grip g) ;;
      connect (grip g) (gripper_state policy)
  | None => ret tt
  end ;;
  match dataset_writer with
  | None => ret None
  | Some writer =>
      let ds_agent := mkDsWriterAgent writer time_mode make_port [] in
      cams <- getattr cameras ;;
      let ds_agent := fold_left add_signal (map fst cams) ds_agent in
      let ds_agent := add_signal ds_agent "target_grip" in
      let ds_agent := add_signal ds_agent "robot_commands" in
      let ds_agent := add_signal ds_agent "robot_state" in
      let ds_agent := add_signal ds_agent "grip" in
      r <- getitem (inputs ds_agent "robot_commands") ;;
      connect (robot_commands policy) r ;;
      r <- getitem (inputs ds_agent "target_grip") ;;
      connect (target_grip policy) r ;;
      r <- getitem (inputs ds_agent "robot_state") ;;
      connect (state arm) r ;;
      match gripper with
      | Some g =>
          r <- getitem (inputs ds_agent "grip") ;;
          connect (grip g) r
      | None => ret tt
      end ;;
      match cams with
      | [] => ret tt
      | _ :: _ => wire_cameras policy (Some ds_agent) gui cams
      end ;;
      ret (Some ds_agent)
  end.

(** Lines 49-57 as a pure function of the recorder's ports, if there is a
    recorder: the policy's receiver, the recorder's, the GUI's if there
    is one; fake receivers left out. *)
Definition declared_receivers (policy : Policy)
    (agent_port : option (string -> Receiver))
    (gui : option Gui) (signal_name : string) : list Receiver :=
  filter (fun r => negb (is_FakeReceiver r))
    ([frames policy signal_name] ++
     match agent_port with
     | Some p => [p signal_name]
     | None => []
     end ++
     match gui with
     | Some g => [gui_cameras g signal_name]
     | None => []
     end).

End Wire.

(* ================================================================== *)
(** ** Concrete collaborators, to run the definitions on *)

(** An exact geometry: translations on the integer lattice and the four
    quarter turns about the z axis. *)
Module Lattice.

Inductive Turn : Type := Turn0 | Turn1 | Turn2 | Turn3.

Definition turn_mul (a b : Turn) : Turn :=
  match a, b with
  | Turn0, x | x, Turn0 => x
  | Turn1, Turn1 => Turn2
  | Turn1, Turn2 | Turn2, Turn1 => Turn3
  | Turn1, Turn3 | Turn3, Turn1 | Turn2, Turn2 => Turn0
  | Turn2, Turn3 | Turn3, Turn2 => Turn1
  | Turn3, Turn3 => Turn2
  end.

Definition turn_inv (a : Turn) : Turn :=
  match a with
  | Turn0 => Turn0
  | Turn1 => Turn3
  | Turn2 => Turn2
  | Turn3 => Turn1
  end.

Definition Vec3 : Type := (Z * Z * Z)%type.

Definition turn_act (a : Turn) (v : Vec3) : Vec3 :=
  let '(x, y, z) := v in
  match a with
  | Turn0 => (x, y, z)
  | Turn1 => (- y, x, z)
  | Turn2 => (- x, - y, z)
  | Turn3 => (y, - x, z)
  end%Z.

Definition vec_add (u v : Vec3) : Vec3 :=
  let '(a, b, c) := u in
  let '(x, y, z) := v in
  (a + x, b + y, c + z)%Z.

Definition vec_neg (u : Vec3) : Vec3 :=
  let '(a, b, c) := u in (- a, - b, - c)%Z.

#[export] Instance geometry : Geometry := {|
  vec := Vec3;
  rot := Turn;
  vzero := (0, 0, 0)%Z;
  vadd := vec_add;
  vneg := vec_neg;
  rone := Turn0;
  rmul := turn_mul;
  rinv := turn_inv;
  ract := turn_act
|}.

End Lattice.

(** Modelled from the spec: the button edge detector of section 4.2, which
    keeps the last-seen value of every button and the one before it;
    [just_pressed] is the rising edge, [get_value] the last-seen value. *)
Module EdgeDetector.

Record State : Type := mkState {
  current : list (string * Q);
  previous : list (string * Q)
}.

Fixpoint lookup (m : list (string * Q)) (name : string) : Q :=
  match m with
  | [] => 0
  | (k, v) :: rest => if String.eqb k name then v else lookup rest name
  end.

Definition update_one (st : State) (kv : string * Q) : State :=
  let '(k, v) := kv in
  mkState ((k, v) :: current st) ((k, lookup (current st) k) :: previous st).

Definition update (st : State) (mapping : list (string * Q)) : State :=
  fold_left update_one mapping st.

Definition pressed (v : Q) : bool := negb (Qeq_bool v 0).

Definition rising (st : State) (name : string) : bool :=
  pressed (lookup (current st) name) && negb (pressed (lookup (previous st) name)).

#[export] Instance handler : ButtonHandlerOps := {|
  ButtonHandler := State;
  ButtonHandler_init := mkState [] [];
  update_buttons := update;
  just_pressed := rising;
  get_value := fun st name => lookup (current st) name
|}.

End EdgeDetector.

(** Concrete poses and button frames. *)
Module Scenario.
Import Lattice EdgeDetector.

Definition pose (x y z : Z) (r : Turn) : Transform3D :=
  mkTransform3D (G := geometry) (x, y, z) r.

(** An operator calibration (a quarter turn), a controller pose and a
    robot pose. *)
Definition calibration : Transform3D := pose 0 0 0 Turn1.
Definition controller_pose : Transform3D := pose 1 2 3 Turn3.
Definition robot_pose : Transform3D := pose 10 (-4) 7 Turn2.

(** A button frame with only the right side connected; the array holds
    trigger, thumb, an unused entry, stick, A, B. *)
Definition right_frame (trigger stick a b : Q) : Buttons :=
  fun side =>
    if String.eqb side "right" then Some [trigger; 0; 0; stick; a; b]
    else None.

Definition stale_message : Message :=
  mkMessage (G := geometry) controller_pose false.

Definition fresh_message : Message :=
  mkMessage (G := geometry) controller_pose true.

Definition task_metadata : Metadata := [("task", "stack cubes")].

Definition input (buttons : option Buttons) (msg : Message) : TickInput :=
  mkTickInput (G := geometry) false buttons
              (Some (mkRobotState robot_pose)) msg task_metadata.

(** No button frame has arrived yet; a fresh controller pose has. *)
Definition no_buttons : TickInput := input None fresh_message.

(** Buttons B and A of the right controller go down on the same tick. *)
Definition press_B_and_A : TickInput :=
  input (Some (right_frame 0 0 1 1)) stale_message.

(** Only A goes down. *)
Definition press_A : TickInput :=
  input (Some (right_frame 0 0 1 0)) stale_message.

(** Only B goes down. *)
Definition press_B : TickInput :=
  input (Some (right_frame 0 0 0 1)) stale_message.

(** Everything released. *)
Definition release_all : TickInput :=
  input (Some (right_frame 0 0 0 0)) stale_message.

(** B and the stick go down on the same tick. *)
Definition press_B_and_stick : TickInput :=
  input (Some (right_frame 0 1 0 1)) stale_message.

(** Only the stick goes down, the trigger half pressed, with a fresh
    controller pose. *)
Definition press_stick : TickInput :=
  input (Some (right_frame (1 # 2) 1 0 0)) fresh_message.

(** Only the trigger is pressed. *)
Definition hold_trigger (msg : Message) : TickInput :=
  input (Some (right_frame 1 0 0 0)) msg.

Definition events (o : Outcome (G := geometry) (B := handler)) : list Event :=
  snd (fst o).

Definition final_state (o : Outcome (G := geometry) (B := handler)) : LoopState :=
  fst (fst o).

(** The loop as [run] sets it up, with the quarter-turn calibration. *)
Definition start : LoopState (G := geometry) (B := handler) :=
  run_init (Some calibration).

(** The loop after an episode has been started and B released. *)
Definition while_recording : LoopState :=
  final_state (run_from [press_B; release_all] start).

(** The loop after an episode has been started and the tracker engaged. *)
Definition recording_and_tracking : LoopState :=
  final_state (run_from [press_B; release_all; press_A; release_all] start).
End Scenario.

(** Concrete wirings. *)
Module WireScenario.
Import Wire.

Definition fake (name : string) : Receiver := mkReceiver name true.
Definition real (name : string) : Receiver := mkReceiver name false.

(** The data collection controller as a policy: its [frames] are a
    [ReceiverDict] built with [fake=True]. *)
Definition policy : Policy :=
  mkPolicy "policy.robot_commands" "policy.target_grip"
           (real "policy.robot_state") (fake "policy.gripper_state")
           (fun name => fake ("policy.frames." ++ name)%string).

Definition arm : RobotArm := mkRobotArm (real "arm.commands") "arm.state".

Definition gui : Gui :=
  mkGui (fun name => real ("gui.cameras." ++ name)%string).

Definition agent_port (name : string) : Receiver :=
  real ("ds_agent.inputs." ++ name)%string.

Definition writer : DatasetWriter := mkDatasetWriter "dataset".

Definition one_camera : list (string * Emitter) :=
  [("image.left", "camera_left.frame")].

Definition two_cameras : list (string * Emitter) :=
  [("image.left", "camera_left.frame"); ("image.right", "camera_right.frame")].

(** No dataset writer, no GUI, one camera. *)
Definition without_recorder : World * (Exn + option DsWriterAgent) :=
  wire agent_port policy None (Some one_camera) (Some arm) None None CLOCK [].

(** A dataset writer, a GUI and two cameras. *)
Definition with_recorder : World * (Exn + option DsWriterAgent) :=
  wire agent_port policy (Some writer) (Some two_cameras) (Some arm) None
       (Some gui) CLOCK [].

(** No dataset writer, a GUI, one camera. *)
Definition gui_without_recorder : World * (Exn + option DsWriterAgent) :=
  wire agent_port policy None (Some one_camera) (Some arm) None (Some gui)
       CLOCK [].
End WireScenario.

(** More concrete ticks. *)
Module EdgeCases.
Import Lattice EdgeDetector Scenario.

(** A frame whose right side has only five entries. *)
Definition short_frame : Buttons :=
  fun side => if String.eqb side "right" then Some [0; 0; 0; 0; 1] else None.

Definition short_right_side : TickInput :=
  input (Some short_frame) fresh_message.

(** A goes down while no robot state has arrived. *)
Definition press_A_without_robot_state : TickInput :=
  mkTickInput (G := geometry) false (Some (right_frame 0 0 1 0)) None
              fresh_message task_metadata.

(** The stop signal is on; B is down. *)
Definition stop_signal : TickInput :=
  mkTickInput (G := geometry) true (Some (right_frame 0 0 0 1))
              (Some (mkRobotState robot_pose)) fresh_message task_metadata.

(** The loop in passthrough mode. *)
Definition passthrough_start : LoopState (G := geometry) (B := handler) :=
  run_init None.
End EdgeCases.

(* ================================================================== *)
(** ** controller_positions_serializer *)

Module Serializer.

(** A Python dict: keys in insertion order, each key once. *)
Definition Dict (V : Type) : Type := list (string * V).

Fixpoint dict_get {V : Type} (d : Dict V) (key : string) : option V :=
  match d with
  | [] => None
  | (k, v) :: rest => if String.eqb k key then Some v else dict_get rest key
  end.

(** [d[key] = v]: an existing key keeps its place and takes the new value,
    a new key goes to the end. *)
Fixpoint dict_set {V : Type} (d : Dict V) (key : string) (v : V) : Dict V :=
  match d with
  | [] => [(key, v)]
  | (k, v0) :: rest =>
      if String.eqb k key then (k, v) :: rest
      else (k, v0) :: dict_set rest key v
  end.

Section Serialize.
Context {G : Geometry} {A : Type}.

(** [Serializers.transform_3d], which turns a pose into an array. *)
Variable transform_3d : Transform3D -> A.

(** The [for side, pos in controller_positions.items()] loop, with [res]
    the dict built so far. *)
Fixpoint serialize_items (items : list (string * option Transform3D))
    (res : Dict A) : Dict A :=
  match items with
  | [] => res
  | (side, pos) :: rest =>
      match pos with
      | Some p =>
          serialize_items rest (dict_set res ("." ++ side)%string (transform_3d p))
      | None => serialize_items rest res
      end
  end.

Definition controller_positions_serializer
    (controller_positions : Dict (option Transform3D)) : Dict A :=
  serialize_items controller_positions [].

(** The entries of a dict of controller positions whose position is not
    [None], as the serializer writes them. *)
Fixpoint present (items : list (string * option Transform3D)) : Dict A :=
  match items with
  | [] => []
  | (side, Some p) :: rest => (("." ++ side)%string, transform_3d p) :: present rest
  | (_, None) :: rest => present rest
  end.
End Serialize.

End Serializer.

(* ================================================================== *)
(** ** Views of call sequences and traces *)

Section Views.
Context {G : Geometry}.

Definition is_turn_on (c : TrackerCall) : bool :=
  match c with
  | CallTurnOn _ => true
  | _ => false
  end.

Definition is_update (c : TrackerCall) : bool :=
  match c with
  | CallUpdate _ => true
  | _ => false
  end.

(** The sleeps yielded, in order. *)
Fixpoint sleeps (evs : list Event) : list Q :=
  match evs with
  | [] => []
  | YieldSleep s :: rest => s :: sleeps rest
  | _ :: rest => sleeps rest
  end.

(** The sound files sent to the sound emitter, in order. *)
Fixpoint sounds (evs : list Event) : list string :=
  match evs with
  | [] => []
  | EmitSound path :: rest => path :: sounds rest
  | _ :: rest => sounds rest
  end.

(** The recorder commands with their metadata, in order. *)
Fixpoint ds_agent_commands (evs : list Event) : list DsWriterCommand :=
  match evs with
  | [] => []
  | EmitDsAgentCommand c :: rest => c :: ds_agent_commands rest
  | _ :: rest => ds_agent_commands rest
  end.

(** How many times the metadata getter was called. *)
Fixpoint metadata_calls (evs : list Event) : nat :=
  match evs with
  | [] => O
  | CallMetadataGetter :: rest => S (metadata_calls rest)
  | _ :: rest => metadata_calls rest
  end.
(** The metadata a recorder command carries when it is emitted on a tick
    with input [inp]: what the getter returns for a start, nothing for the
    other commands. *)
Definition metadata_of (inp : TickInput) (c : DsWriterCommand) : Prop :=
  cmd_metadata c
  = match cmd_type c with
    | START_EPISODE => metadata_getter_result inp
    | _ => []
    end.
End Views.

(** How many episodes a list of recorder commands starts. *)
Fixpoint episodes_started (cmds : list DsWriterCommandType) : nat :=
  match cmds with
  | [] => O
  | START_EPISODE :: rest => S (episodes_started rest)
  | _ :: rest => episodes_started rest
  end.

(** The sound file that goes with a recorder command. *)
Definition cue (c : DsWriterCommandType) : string :=
  match c with
  | START_EPISODE => start_wav_path
  | STOP_EPISODE => end_wav_path
  | ABORT_EPISODE => abort_wav_path
  end.

(** Whether an array of one side is long enough for the indexes that
    [_parse_buttons] reads. *)
Definition long_enough (side : option (list Q)) : bool :=
  match side with
  | None => true
  | Some arr => (6 <=? List.length arr)%nat
  end.

(** The connection the camera loop makes for an emitter and a list of
    receivers that is not empty: a broadcast for more than one receiver, a
    unicast to the only one otherwise. *)
Definition camera_connection (policy : Wire.Policy)
    (agent_port : string -> Wire.Receiver) (gui : option Wire.Gui)
    (camera : string * Wire.Emitter) : Wire.Connection :=
  let rs := Wire.declared_receivers policy (Some agent_port) gui (fst camera) in
  match rs with
  | [r] => Wire.Connect (snd camera) r
  | _ => Wire.ConnectBroadcast (snd camera) rs
  end.

(** Whether a camera signal has a receiver left after the fake ones are
    filtered out. *)
Definition has_receiver (policy : Wire.Policy)
    (agent_port : string -> Wire.Receiver) (gui : option Wire.Gui)
    (camera : string * Wire.Emitter) : bool :=
  match Wire.declared_receivers policy (Some agent_port) gui (fst camera) with
  | [] => false
  | _ :: _ => true
  end.

(** The connections [wire] makes before it comes to the cameras: the robot
    arm, the gripper if there is one, then the recorder's three fixed
    inputs and its grip input if there is a gripper. *)
Definition arm_connections (policy : Wire.Policy) (arm : Wire.RobotArm)
    (gripper : option Wire.Gripper) : list Wire.Connection :=
  [ Wire.Connect (Wire.robot_commands policy) (Wire.commands arm);
    Wire.Connect (Wire.state arm) (Wire.robot_state policy) ]
  ++ match gripper with
     | Some g =>
         [ Wire.Connect (Wire.target_grip policy) (Wire.gripper_target_grip g);
           Wire.Connect (Wire.grip g) (Wire.gripper_state policy) ]
     | None => []
     end.

Definition recorder_connections (agent_port : string -> Wire.Receiver)
    (policy : Wire.Policy) (arm : Wire.RobotArm)
    (gripper : option Wire.Gripper) : list Wire.Connection :=
  [ Wire.Connect (Wire.robot_commands policy) (agent_port "robot_commands");
    Wire.Connect (Wire.target_grip policy) (agent_port "target_grip");
    Wire.Connect (Wire.state arm) (agent_port "robot_state") ]
  ++ match gripper with
     | Some g => [Wire.Connect (Wire.grip g) (agent_port "grip")]
     | None => []
     end.

(** What holds of every connection the camera loop makes: no fake
    receiver, and at least two receivers in a broadcast. *)
Definition camera_connection_ok (c : Wire.Connection) : bool :=
  match c with
  | Wire.Connect _ r => negb (Wire.is_FakeReceiver r)
  | Wire.ConnectBroadcast _ rs =>
      (2 <=? List.length rs)%nat
      && forallb (fun r => negb (Wire.is_FakeReceiver r)) rs
  end.

(** The emitter of a connection. *)
Definition connection_emitter (c : Wire.Connection) : Wire.Emitter :=
  match c with
  | Wire.Connect e _ => e
  | Wire.ConnectBroadcast e _ => e
  end.

(** The receivers of a connection. *)
Definition connection_receivers (c : Wire.Connection) : list Wire.Receiver :=
  match c with
  | Wire.Connect _ r => [r]
  | Wire.ConnectBroadcast _ rs => rs
  end.

(* ================================================================== *)
(** ** data_collection.py: _wire and the wiring done by main *)

Module CollectionWiring.
Import Wire.

Record WebXR : Type := mkWebXR {
  controller_positions : Emitter;
  buttons : Emitter;
  frame : Receiver
}.

Record Sound : Type := mkSound {
  wav_path : Receiver;
  level : Receiver
}.

(** The ports of a [DataCollectionController]: those [wire] uses of any
    policy, and those only [_wire] uses. *)
Record DataCollection : Type := mkDataCollection {
  as_policy : Policy;
  controller_positions_receiver : Receiver;    (* self.controller_positions *)
  buttons_receiver : Receiver;
  sound_emitter : Emitter;                     (* self.sound *)
  ds_agent_commands_emitter : Emitter          (* self.ds_agent_commands *)
}.

Section Wiring.
(** [pimm.map(_wrench_to_level)] as an emitter wrapper, [pimm.map(lambda
    adapter: adapter.array)] as a receiver wrapper, the [command] port of
    a recorder, and the ports the recorder creates. *)
Variable wrench_to_level : Emitter -> Emitter.
Variable adapter_array : Receiver -> Receiver.
Variable command : DsWriterAgent -> Receiver.
Variable make_port : string -> Receiver.

(** [_wire].  [add_signal] changes the recorder in place; the recorder
    returned is the changed one. *)
Definition _wire (ds_agent : option DsWriterAgent)
    (data_collection : DataCollection) (webxr : WebXR)
    (robot_arm : option RobotArm) (sound : option Sound)
  : M (option DsWriterAgent) :=
  connect (controller_positions webxr)
          (controller_positions_receiver data_collection) ;;
  connect (buttons webxr) (buttons_receiver data_collection) ;;
  match sound with
  | Some s =>
      connect (sound_emitter data_collection) (wav_path s) ;;
      arm <- getattr robot_arm ;;
      connect (wrench_to_level (state arm)) (level s)
  | None => ret tt
  end ;;
  match ds_agent with
  | Some agent =>
      let agent := add_signal agent "controller_positions" in
      r <- getitem (inputs agent "controller_positions") ;;
      connect (controller_positions webxr) r ;;
      connect (ds_agent_commands_emitter data_collection) (command agent) ;;
      ret (Some agent)
  | None => ret None
  end.

(** [camera_emitters] in [main]: the [frame] emitters of [cameras or {}]. *)
Definition emitters_of (cameras : option (list (string * Emitter)))
  : list (string * Emitter) :=
  match cameras with
  | Some cams => cams
  | None => []
  end.

(** The wiring [main] does inside its [with] block (lines 210-227), after
    which it only starts the world: [cameras] maps each name to the
    [frame] emitter of its camera, [dataset_writer] is there when an
    output directory is given, and the result is the recorder that [main]
    goes on with. *)
Definition main_wiring (robot_arm : option RobotArm) (gripper : option Gripper)
    (webxr : WebXR) (sound : option Sound)
    (cameras : option (list (string * Emitter)))
    (dataset_writer : option DatasetWriter)
    (stream_video_to_webxr : option string)
    (data_collection : DataCollection) : M (option DsWriterAgent) :=
  let camera_emitters := emitters_of cameras in
  ds_agent <- wire make_port (as_policy data_collection) dataset_writer
                   (Some camera_emitters) robot_arm gripper None CLOCK ;;
  ds_agent <- _wire ds_agent data_collection webxr robot_arm sound ;;
  match stream_video_to_webxr with
  | Some name =>
      emitter <- getitem (Serializer.dict_get camera_emitters name) ;;
      connect emitter (adapter_array (frame webxr))
  | None => ret tt
  end ;;
  ret ds_agent.

(** The connections [_wire] makes when nothing fails. *)
Definition collection_connections (ds_agent : option DsWriterAgent)
    (data_collection : DataCollection) (webxr : WebXR)
    (robot_arm : option RobotArm) (sound : option Sound) : list Connection :=
  [ Connect (controller_positions webxr)
            (controller_positions_receiver data_collection);
    Connect (buttons webxr) (buttons_receiver data_collection) ]
  ++ match sound, robot_arm with
     | Some s, Some arm =>
         [ Connect (sound_emitter data_collection) (wav_path s);
           Connect (wrench_to_level (state arm)) (level s) ]
     | Some s, None => [Connect (sound_emitter data_collection) (wav_path s)]
     | None, _ => []
     end
  ++ match ds_agent with
     | Some agent =>
         [ Connect (controller_positions webxr)
                   (port agent "controller_positions");
           Connect (ds_agent_commands_emitter data_collection)
                   (command (add_signal agent "controller_positions")) ]
     | None => []
     end.
End Wiring.

End CollectionWiring.

(** A concrete data collection set-up. *)
Module CollectionScenario.
Import Wire CollectionWiring WireScenario.

Definition webxr : WebXR :=
  mkWebXR "webxr.controller_positions" "webxr.buttons" (real "webxr.frame").

Definition sound : Sound :=
  mkSound (real "sound.wav_path") (real "sound.level").

Definition data_collection : DataCollection :=
  mkDataCollection policy (real "dc.controller_positions")
                   (real "dc.buttons_receiver") "dc.sound"
                   "dc.ds_agent_commands".

Definition wrench_to_level (e : Emitter) : Emitter :=
  ("map(_wrench_to_level)." ++ e)%string.

Definition adapter_array (r : Receiver) : Receiver :=
  mkReceiver ("map(array)." ++ receiver_id r)%string (is_FakeReceiver r).

Definition command (agent : DsWriterAgent) : Receiver :=
  real "ds_agent.command".

(** [main] with a robot arm, two cameras, an output directory, and the
    left camera streamed to WebXR. *)
Definition recording_session : World * (Exn + option DsWriterAgent) :=
  main_wiring wrench_to_level adapter_array command agent_port (Some arm) None
              webxr (Some sound) (Some two_cameras) (Some writer)
              (Some "image.left") data_collection [].

(** [main] with a robot arm and a camera to stream that does not exist. *)
Definition wrong_stream : World * (Exn + option DsWriterAgent) :=
  main_wiring wrench_to_level adapter_array command agent_port (Some arm) None
              webxr (Some sound) (Some two_cameras) None
              (Some "image.wrist") data_collection [].
End CollectionScenario.

(* ================================================================== *)
(** ** The loop with the failures of get_value and of a missing pose *)

(** [ButtonHandler.get_value] asserts that the button has been given a
    value by [update_buttons]; [has_value] tells whether it has.
    [just_pressed] makes no such assertion. *)
Class ButtonHandlerAsserts (B : ButtonHandlerOps) : Type := {
  has_value : ButtonHandler -> string -> bool
}.

(** What ends an iteration with an exception. *)
Inductive Failure : Type :=
| Raised (e : Exn)         (* an exception of lines 125-144 *)
| AssertionError           (* get_value on a button never updated, line 146 *)
| UpdateOfNone.            (* self._operator_position * None, line 84 *)

Section FullLoop.
Context {G : Geometry} {B : ButtonHandlerOps} {A : ButtonHandlerAsserts B}.

(** The input of one iteration: what [TickInput] holds, and
    [cp_msg.data['right']], which is [None] when the right controller has
    no pose; [data_right] of the message is then not looked at. *)
Record FullInput : Type := mkFullInput {
  seen : TickInput;
  right_pose : option Transform3D
}.

(** What the loop emits and yields: the events above, and the Cartesian
    target whose pose is [None], which passthrough mode lets through. *)
Inductive Sent : Type :=
| Plain (e : Event)
| EmitCartesianPositionOfNone.

(** The events among what was sent. *)
Fixpoint plain_events (sent : list Sent) : list Event :=
  match sent with
  | [] => []
  | Plain e :: rest => e :: plain_events rest
  | EmitCartesianPositionOfNone :: rest => plain_events rest
  end.

Definition FullOutcome : Type := (LoopState * list Sent * option Failure)%type.

(** [tracker.update(cp_msg.data['right'])]: in passthrough mode whatever
    it is given comes back, [None] too; with a calibration, [None] makes
    the product of line 84 raise before [_teleop_t] is assigned.  The
    result is [None] when it raises. *)
Definition update_right (self : _Tracker) (tracker_pos : option Transform3D)
  : option (_Tracker * option Transform3D) :=
  match tracker_pos with
  | Some p => let '(t, target) := update self p in Some (t, Some target)
  | None => if umi_mode self then Some (self, None) else None
  end.

(** Lines 146-151, with the assertion of [get_value] and a pose that may
    be [None]. *)
Definition emit_targets_full (i : FullInput) (st : LoopState) : FullOutcome :=
  if has_value (button_handler st) "right_trigger" then
    let grip :=
      Plain (EmitTargetGrip (get_value (button_handler st) "right_trigger")) in
    let cp_msg := controller_positions_read (seen i) in
    if updated cp_msg then
      match update_right (tracker st) (right_pose i) with
      | None => (st, [grip], Some UpdateOfNone)
      | Some (t, target_robot_pos) =>
          (mkLoopState t (button_handler st) (recording st),
           grip :: (if on t
                    then [match target_robot_pos with
                          | Some p => Plain (EmitRobotCommand (CartesianPosition p))
                          | None => EmitCartesianPositionOfNone
                          end]
                    else []),
           None)
      end
    else (st, [grip], None)
  else (st, [], Some AssertionError).

(** One iteration of the [while] loop: lines 125-144 as [read_and_handle]
    has them, then lines 146-153; [NoValueException] is caught and the
    sleep yielded (lines 155-157), anything else leaves the loop. *)
Definition tick_full (i : FullInput) (st : LoopState) : FullOutcome :=
  let '(st1, ev1, raised) := read_and_handle (seen i) st in
  match raised with
  | Some NoValueException =>
      (st1, map Plain ev1 ++ [Plain (YieldSleep (1 # 1000))], None)
  | Some e => (st1, map Plain ev1, Some (Raised e))
  | None =>
      let '(st2, ev2, failed) := emit_targets_full i st1 in
      match failed with
      | Some f => (st2, map Plain ev1 ++ ev2, Some f)
      | None =>
          (st2, map Plain ev1 ++ ev2 ++ [Plain (YieldSleep (1 # 1000))], None)
      end
  end.

(** An outcome of [tick] as an outcome of [tick_full]. *)
Definition as_full (o : Outcome) : FullOutcome :=
  let '(st, ev, raised) := o in (st, map Plain ev, option_map Raised raised).

(** The iterations of a run: the input of each one with the events it
    caused, up to the stop signal or the exception that ends the loop. *)
Fixpoint iterations (inputs : list TickInput) (st : LoopState)
  : list (TickInput * list Event) :=
  match inputs with
  | [] => []
  | inp :: rest =>
      if should_stop_value inp then []
      else
        let '(st1, ev1, raised) := tick inp st in
        (inp, ev1) :: match raised with
                      | Some _ => []
                      | None => iterations rest st1
                      end
  end.
End FullLoop.

(** The edge detector holds a value for the buttons it has been given. *)
Definition EdgeDetector_has_value (st : EdgeDetector.State) (name : string)
  : bool :=
  existsb (String.eqb name) (map fst (EdgeDetector.current st)).

#[export] Instance EdgeDetector_asserts
  : ButtonHandlerAsserts EdgeDetector.handler :=
  Build_ButtonHandlerAsserts EdgeDetector.handler EdgeDetector_has_value.

(** Concrete iterations with the pose of the right controller. *)
Module FullScenario.
Import Lattice EdgeDetector Scenario.

(** The right controller has the controller pose. *)
Definition with_pose (inp : TickInput) : FullInput :=
  mkFullInput (G := geometry) inp (Some controller_pose).

(** The right controller has no pose. *)
Definition without_pose (inp : TickInput) : FullInput :=
  mkFullInput (G := geometry) inp None.

(** A frame with only the left side connected, B down on it. *)
Definition left_frame : Buttons :=
  fun side =>
    if String.eqb side "left" then Some [0; 0; 0; 0; 0; 1] else None.

Definition left_side_only : TickInput :=
  input (Some left_frame) fresh_message.

Definition sent (o : FullOutcome (G := geometry) (B := handler)) : list Sent :=
  snd (fst o).

Definition state_after (o : FullOutcome (G := geometry) (B := handler))
  : LoopState :=
  fst (fst o).
End FullScenario.

(* ================================================================== *)
(** * Properties of the tracker *)

Section TrackerFacts.
Context {G : Geometry}.

Lemma umi_mode_Some (t : _Tracker) (op : Transform3D) :
  _operator_position t = Some op -> umi_mode t = false.
Proof. unfold umi_mode. intros ->. reflexivity. Qed.

Lemma umi_mode_None (t : _Tracker) :
  _operator_position t = None -> umi_mode t = true.
Proof. unfold umi_mode. intros ->. reflexivity. Qed.

Lemma turn_on_umi (t : _Tracker) (P : Transform3D) :
  umi_mode t = true -> fst (turn_on t P) = t.
Proof. unfold turn_on. intros ->. reflexivity. Qed.

Lemma turn_off_umi (t : _Tracker) :
  umi_mode t = true -> fst (turn_off t) = t.
Proof. unfold turn_off. intros ->. reflexivity. Qed.

Lemma update_umi (t : _Tracker) (pose : Transform3D) :
  umi_mode t = true -> update t pose = (t, pose).
Proof.
  unfold umi_mode, update.
  destruct (_operator_position t); [discriminate | reflexivity].
Qed.

Lemma update_keeps (t : _Tracker) (pose : Transform3D) :
  _operator_position (fst (update t pose)) = _operator_position t
  /\ on (fst (update t pose)) = on t
  /\ _offset (fst (update t pose)) = _offset t.
Proof.
  unfold update. destruct (_operator_position t) eqn:E; cbn; auto.
Qed.

Lemma update_teleop (t : _Tracker) (op pose : Transform3D) :
  _operator_position t = Some op ->
  _teleop_t (fst (update t pose)) = mapped op pose.
Proof. unfold update. intros ->. reflexivity. Qed.

Lemma turn_on_twice (t : _Tracker) (P : Transform3D) :
  fst (turn_on (fst (turn_on t P)) P) = fst (turn_on t P).
Proof.
  unfold turn_on at 2 3.
  destruct (umi_mode t) eqn:U; cbn [fst].
  - now apply turn_on_umi.
  - unfold turn_on, umi_mode in *. cbn.
    destruct (_operator_position t); [reflexivity | discriminate].
Qed.

Lemma turn_on_times_S (n : nat) (t : _Tracker) (P : Transform3D) :
  turn_on_times (S n) t P = fst (turn_on t P).
Proof.
  revert t. induction n as [|n IH]; intro t.
  - reflexivity.
  - change (turn_on_times (S (S n)) t P)
      with (turn_on_times (S n) (fst (turn_on t P)) P).
    rewrite IH. apply turn_on_twice.
Qed.

Lemma calls_umi (cs : list TrackerCall) (t : _Tracker) :
  umi_mode t = true -> calls t cs = t.
Proof.
  unfold calls. induction cs as [|c cs IH]; intro U; [reflexivity|].
  cbn [fold_left].
  assert (E : call t c = t).
  { destruct c; cbn [call].
    - now apply turn_on_umi.
    - now apply turn_off_umi.
    - now rewrite update_umi. }
  rewrite E. now apply IH.
Qed.

(** C5: a tracker built with no operator calibration is engaged from the
    start and stays as it was built whatever is called on it; [update]
    hands back the pose it is given, and [turn_on] and [turn_off] change
    nothing. *)
Theorem passthrough_semantics
    (cs : list TrackerCall) (pose P : Transform3D) :
  let t := calls (Tracker_init None) cs in
  on (Tracker_init None) = true
  /\ t = Tracker_init None
  /\ on t = true
  /\ update t pose = (t, pose)
  /\ fst (turn_on t P) = t
  /\ fst (turn_off t) = t.
Proof.
  intro t.
  assert (E : t = Tracker_init None) by (apply calls_umi; reflexivity).
  rewrite E. repeat split; reflexivity.
Qed.

(** C8: engaging again and again with the same robot pose, with no
    [update] in between, leaves the tracker as the first engage left it,
    so the next [update] gives the same target pose. *)
Theorem engage_idempotent
    (t : _Tracker) (P c : Transform3D) (n : nat) :
  turn_on_times (S n) t P = fst (turn_on t P)
  /\ snd (update (turn_on_times (S n) t P) c)
     = snd (update (fst (turn_on t P)) c).
Proof.
  pose proof (turn_on_times_S n t P) as E.
  split; [exact E | now rewrite E].
Qed.

Section Exact.
Context {L : GeometryLaws G}.

Lemma vadd_0_r (a : vec) : vadd a vzero = a.
Proof. rewrite vadd_comm. apply vadd_0_l. Qed.

Lemma vneg_0 : vneg vzero = vzero.
Proof. rewrite <- (vadd_0_l (vneg vzero)). apply vadd_neg_r. Qed.

Lemma rinv_1 : rinv rone = rone.
Proof. rewrite <- (rmul_1_l (rinv rone)). apply rmul_inv_r. Qed.

Lemma vadd_cancel (a b : vec) : vadd a (vadd (vneg a) b) = b.
Proof. now rewrite vadd_assoc, vadd_neg_r, vadd_0_l. Qed.

Lemma rmul_cancel (p q : rot) : rmul p (rmul (rinv p) q) = q.
Proof. now rewrite rmul_assoc, rmul_inv_r, rmul_1_l. Qed.

(** C1: with an operator calibration, after [update] has seen the
    controller pose [c], [turn_on P] sets the offset to
    (P.translation - mapped.translation, inverse(mapped.rotation) * P.rotation)
    and the next [update c] returns [P]. *)
Theorem engage_continuity
    (t0 : _Tracker) (op c P : Transform3D) :
  _operator_position t0 = Some op ->
  let t1 := fst (update t0 c) in
  let t2 := fst (turn_on t1 P) in
  on t2 = true
  /\ translation (_offset t2)
     = vadd (translation P) (vneg (translation (mapped op c)))
  /\ rotation (_offset t2)
     = rmul (rinv (rotation (mapped op c))) (rotation P)
  /\ snd (update t2 c) = P.
Proof.
  intros Hop t1 t2.
  assert (H1 : _operator_position t1 = Some op).
  { unfold t1. destruct (update_keeps t0 c) as (-> & _). exact Hop. }
  assert (T1 : _teleop_t t1 = mapped op c) by now apply update_teleop.
  assert (E2 : t2 = mk_Tracker (Some op) true
            (mkTransform3D
               (vadd (vneg (translation (mapped op c))) (translation P))
               (rmul (rinv (rotation (mapped op c))) (rotation P)))
            (mapped op c)).
  { unfold t2, turn_on. rewrite (umi_mode_Some _ _ H1), H1, T1.
    reflexivity. }
  rewrite E2. cbn [on _offset translation rotation].
  repeat split.
  - apply vadd_comm.
  - unfold update. cbn [_operator_position _offset translation rotation].
    fold (mapped op c).
    rewrite vadd_cancel, rmul_cancel. destruct P; reflexivity.
Qed.

(** C10: a tracker built with an operator calibration starts
    disengaged, its offset and last mapped pose being the identity
    transform; engaged before any [update], its offset is the robot
    pose. *)
Theorem initial_state_and_first_engage (op P : Transform3D) :
  let t := Tracker_init (Some op) in
  on t = false
  /\ _offset t = mkTransform3D vzero rone
  /\ _teleop_t t = mkTransform3D vzero rone
  /\ translation (_offset (fst (turn_on t P))) = translation P
  /\ rotation (_offset (fst (turn_on t P))) = rotation P.
Proof.
  cbn. repeat split.
  - now rewrite vneg_0, vadd_0_l.
  - now rewrite rinv_1, rmul_1_l.
Qed.
End Exact.
End TrackerFacts.

#[export] Instance Lattice_laws : GeometryLaws Lattice.geometry.
Proof.
  split; cbn.
  - intros [[a b] c] [[d e] f] [[g h] i]; cbn; f_equal; [f_equal|]; lia.
  - intros [[a b] c] [[d e] f]; cbn; f_equal; [f_equal|]; lia.
  - intros [[a b] c]; reflexivity.
  - intros [[a b] c]; cbn; f_equal; [f_equal|]; lia.
  - intros [] [] []; reflexivity.
  - intros []; reflexivity.
  - intros []; reflexivity.
  - intros []; reflexivity.
  - intros []; reflexivity.
Qed.

(** The continuity of engagement on the lattice: calibration a quarter
    turn, controller at (1, 2, 3), robot at (10, -4, 7). *)
Lemma engage_continuity_witness :
  _operator_position (Tracker_init (Some Scenario.calibration))
    = Some Scenario.calibration
  /\ snd (update
            (fst (turn_on
                    (fst (update (Tracker_init (Some Scenario.calibration))
                                 Scenario.controller_pose))
                    Scenario.robot_pose))
            Scenario.controller_pose)
     = Scenario.robot_pose.
Proof.
  split; [reflexivity|].
  apply (engage_continuity (L := Lattice_laws)
           (Tracker_init (Some Scenario.calibration)) Scenario.calibration
           Scenario.controller_pose Scenario.robot_pose eq_refl).
Defined.

(** The first engage on the lattice. *)
Lemma initial_state_and_first_engage_witness :
  _offset (fst (turn_on (Tracker_init (Some Scenario.calibration))
                        Scenario.robot_pose))
  = Scenario.robot_pose.
Proof.
  pose proof (initial_state_and_first_engage (L := Lattice_laws)
                Scenario.calibration Scenario.robot_pose) as (_ & _ & _ & Ht & Hr).
  destruct (_offset (fst (turn_on (Tracker_init (Some Scenario.calibration))
                                  Scenario.robot_pose))) as [t r].
  cbn in Ht, Hr. rewrite Ht, Hr. reflexivity.
Defined.

(* ================================================================== *)
(** * Properties of the control loop *)

Section LoopFacts.
Context {G : Geometry} {B : ButtonHandlerOps}.

Lemma ds_commands_app (a b : list Event) :
  ds_commands (a ++ b) = ds_commands a ++ ds_commands b.
Proof.
  induction a as [|e a IH]; [reflexivity|].
  destruct e; cbn; now rewrite ?IH.
Qed.

Lemma robot_commands_app (a b : list Event) :
  robot_commands (a ++ b) = robot_commands a ++ robot_commands b.
Proof.
  induction a as [|e a IH]; [reflexivity|].
  destruct e; cbn; now rewrite ?IH.
Qed.

Lemma grip_targets_app (a b : list Event) :
  grip_targets (a ++ b) = grip_targets a ++ grip_targets b.
Proof.
  induction a as [|e a IH]; [reflexivity|].
  destruct e; cbn; now rewrite ?IH.
Qed.

Lemma ds_commands_prints (ls : list string) :
  ds_commands (map PrintLine ls) = [].
Proof. induction ls; cbn; auto. Qed.

Lemma robot_commands_prints (ls : list string) :
  robot_commands (map PrintLine ls) = [].
Proof. induction ls; cbn; auto. Qed.

Lemma grip_targets_prints (ls : list string) :
  grip_targets (map PrintLine ls) = [].
Proof. induction ls; cbn; auto. Qed.

(** What [emit_targets] leaves alone, and what it emits. *)
Lemma emit_targets_keeps (inp : TickInput) (st : LoopState) :
  recording (fst (emit_targets inp st)) = recording st
  /\ button_handler (fst (emit_targets inp st)) = button_handler st
  /\ on (tracker (fst (emit_targets inp st))) = on (tracker st)
  /\ _operator_position (tracker (fst (emit_targets inp st)))
     = _operator_position (tracker st)
  /\ ds_commands (snd (emit_targets inp st)) = []
  /\ grip_targets (snd (emit_targets inp st))
     = [get_value (button_handler st) "right_trigger"].
Proof.
  unfold emit_targets.
  destruct (updated (controller_positions_read inp)).
  - destruct (update (tracker st) (data_right (controller_positions_read inp)))
      as [t target] eqn:U.
    pose proof (update_keeps (tracker st)
                  (data_right (controller_positions_read inp))) as K.
    rewrite U in K. cbn [fst snd] in *. destruct K as (K1 & K2 & _).
    cbn [recording button_handler tracker].
    repeat split; auto.
    + destruct (on t); reflexivity.
    + destruct (on t); reflexivity.
  - cbn. repeat split; reflexivity.
Qed.

(** The events of the edge handling hold no grip target, and no robot
    command other than [Reset]. *)
Lemma handle_edges_events (inp : TickInput) (st st1 : LoopState)
    (ev : list Event) (raised : option Exn) :
  handle_edges inp st = (st1, ev, raised) ->
  grip_targets ev = []
  /\ (robot_commands ev = [] \/ robot_commands ev = [Reset]).
Proof.
  unfold handle_edges.
  destruct (just_pressed (button_handler st) "right_B").
  - destruct (negb (recording st)); intro H; inversion H; subst; cbn; auto.
  - destruct (just_pressed (button_handler st) "right_A").
    + destruct (on (tracker st)).
      * destruct (turn_off (tracker st)) as [t pr]. intro H; inversion H; subst.
        rewrite grip_targets_prints, robot_commands_prints. auto.
      * destruct (robot_state_value inp) as [rs|].
        -- destruct (turn_on (tracker st) (ee_pose rs)) as [t pr].
           intro H; inversion H; subst.
           rewrite grip_targets_prints, robot_commands_prints. auto.
        -- intro H; inversion H; subst. cbn. auto.
    + destruct (just_pressed (button_handler st) "right_stick"
                && negb (umi_mode (tracker st))).
      * destruct (turn_off (tracker st)) as [t pr]. intro H; inversion H; subst.
        destruct (recording st); cbn;
          rewrite ?grip_targets_app, ?robot_commands_app,
                  ?grip_targets_prints, ?robot_commands_prints; cbn; auto.
      * intro H; inversion H; subst. cbn. auto.
Qed.

(** A tick whose reading and edge handling raise nothing goes on to
    [emit_targets] and yields. *)
Lemma tick_completes (inp : TickInput) (st st1 : LoopState) (ev1 : list Event) :
  read_and_handle inp st = (st1, ev1, None) ->
  tick inp st
  = (fst (emit_targets inp st1),
     ev1 ++ snd (emit_targets inp st1) ++ [YieldSleep (1 # 1000)], None).
Proof.
  intro H. unfold tick, try_body. rewrite H.
  destruct (emit_targets inp st1) as [st2 ev2]. reflexivity.
Qed.

(** A tick with no button frame is given up at once. *)
Lemma tick_without_buttons (inp : TickInput) (st : LoopState) :
  buttons_receiver_value inp = None ->
  tick inp st = (st, [YieldSleep (1 # 1000)], None).
Proof.
  intro H. unfold tick, try_body, read_and_handle. rewrite H. reflexivity.
Qed.

Lemma read_and_handle_parsed (inp : TickInput) (st : LoopState)
    (buttons : Buttons) (bh : ButtonHandler) :
  buttons_receiver_value inp = Some buttons ->
  _parse_buttons buttons (button_handler st) = (bh, None) ->
  read_and_handle inp st
  = handle_edges inp (mkLoopState (tracker st) bh (recording st)).
Proof.
  intros Hb Hp. unfold read_and_handle. rewrite Hb, Hp. reflexivity.
Qed.


(** C3, as the loop has it: the three edges are looked at in the order
    record toggle, tracking toggle, reset, and only the first one that
    fired is acted on.  A record-toggle edge leaves the tracker alone and
    sends the robot nothing; failing that, a tracking-toggle edge turns the
    tracker off if it is on, and on with the latest robot pose otherwise,
    and leaves recording alone; failing both, a reset edge outside
    passthrough mode stops recording, turns the tracker off and sends
    [Reset]; with no edge nothing happens. *)
Theorem edges_by_priority (inp : TickInput) (st : LoopState) :
  let bh := button_handler st in
  (just_pressed bh "right_B" = true ->
   exists ev,
     handle_edges inp st
     = (mkLoopState (tracker st) bh (negb (recording st)), ev, None)
     /\ ds_commands ev = [if recording st then STOP_EPISODE else START_EPISODE]
     /\ robot_commands ev = [])
  /\ (just_pressed bh "right_B" = false ->
      just_pressed bh "right_A" = true ->
      (on (tracker st) = true ->
       handle_edges inp st
       = (mkLoopState (fst (turn_off (tracker st))) bh (recording st),
          map PrintLine (snd (turn_off (tracker st))), None))
      /\ (on (tracker st) = false ->
          forall rs, robot_state_value inp = Some rs ->
          handle_edges inp st
          = (mkLoopState (fst (turn_on (tracker st) (ee_pose rs))) bh
                         (recording st),
             map PrintLine (snd (turn_on (tracker st) (ee_pose rs))), None))
      /\ (on (tracker st) = false ->
          robot_state_value inp = None ->
          handle_edges inp st = (st, [], Some NoValueException)))
  /\ (just_pressed bh "right_B" = false ->
      just_pressed bh "right_A" = false ->
      just_pressed bh "right_stick" = true ->
      umi_mode (tracker st) = false ->
      exists ev,
        handle_edges inp st
        = (mkLoopState (fst (turn_off (tracker st))) bh false, ev, None)
        /\ ds_commands ev = (if recording st then [ABORT_EPISODE] else [])
        /\ robot_commands ev = [Reset])
  /\ (just_pressed bh "right_B" = false ->
      just_pressed bh "right_A" = false ->
      just_pressed bh "right_stick" && negb (umi_mode (tracker st)) = false ->
      handle_edges inp st = (st, [], None)).
Proof.
  intro bh. unfold handle_edges. fold bh.
  split; [|split; [|split]].
  - intros ->. destruct (recording st); cbn; eexists; repeat split.
  - intros HB HA. rewrite HB, HA. split; [|split].
    + intros ->. destruct (turn_off (tracker st)); reflexivity.
    + intros -> rs ->.
      destruct (turn_on (tracker st) (ee_pose rs)); reflexivity.
    + intros -> ->. reflexivity.
  - intros HB HA HS HU. rewrite HB, HA, HS, HU. cbn [andb negb].
    destruct (turn_off (tracker st)) as [t pr]. cbn [fst].
    eexists. split; [reflexivity|].
    destruct (recording st); cbn;
      rewrite ?ds_commands_app, ?robot_commands_app,
              ?ds_commands_prints, ?robot_commands_prints; cbn; auto.
  - intros HB HA HS. rewrite HB, HA, HS. reflexivity.
Qed.

(** C6: on a record-toggle edge, an idle loop asks the metadata provider,
    emits [START_EPISODE] with that metadata, plays the start cue and is
    recording afterwards; a recording loop emits [STOP_EPISODE], plays the
    stop cue and is idle afterwards. *)
Theorem record_toggle_edge (inp : TickInput) (st : LoopState)
    (buttons : Buttons) (bh : ButtonHandler) :
  buttons_receiver_value inp = Some buttons ->
  _parse_buttons buttons (button_handler st) = (bh, None) ->
  just_pressed bh "right_B" = true ->
  exists st' rest,
    tick inp st
    = (st',
       (if recording st
        then [ EmitDsAgentCommand (mkDsWriterCommand STOP_EPISODE []);
               EmitSound end_wav_path ]
        else [ CallMetadataGetter;
               EmitDsAgentCommand
                 (mkDsWriterCommand START_EPISODE (metadata_getter_result inp));
               EmitSound start_wav_path ])
       ++ rest,
       None)
    /\ recording st' = negb (recording st)
    /\ ds_commands rest = [].
Proof.
  intros Hb Hp HB.
  pose proof (read_and_handle_parsed _ _ _ _ Hb Hp) as R.
  unfold handle_edges in R. cbn [button_handler recording tracker] in R.
  rewrite HB in R.
  destruct (recording st) eqn:Hrec; cbn [negb app] in R;
    rewrite (tick_completes _ _ _ _ R);
    match type of R with
    | _ = (?s1, _, _) =>
        destruct (emit_targets_keeps inp s1) as (Kr & _ & _ & _ & Kd & _)
    end;
    eexists; eexists; (split; [reflexivity|]); split; auto;
    rewrite ds_commands_app, Kd; reflexivity.
Qed.


Lemma episodes_app (r r1 : bool) (a b : list DsWriterCommandType) :
  episodes r a = Some r1 -> episodes r (a ++ b) = episodes r1 b.
Proof.
  revert r. induction a as [|c a IH]; intros r H; cbn in *.
  - now inversion H.
  - destruct c, r; try discriminate; now apply IH.
Qed.

Lemma episodes_idle_head (cmds : list DsWriterCommandType) (r : bool) :
  episodes false cmds = Some r ->
  match cmds with
  | [] => True
  | c :: _ => c = START_EPISODE
  end.
Proof. destruct cmds as [|[] ?]; cbn; auto; discriminate. Qed.

(** The edge handling follows the episode protocol. *)
Lemma handle_edges_episodes (inp : TickInput) (st st1 : LoopState)
    (ev : list Event) (raised : option Exn) :
  handle_edges inp st = (st1, ev, raised) ->
  episodes (recording st) (ds_commands ev) = Some (recording st1).
Proof.
  unfold handle_edges.
  destruct (just_pressed (button_handler st) "right_B").
  - destruct (recording st); intro H; inversion H; subst; reflexivity.
  - destruct (just_pressed (button_handler st) "right_A").
    + destruct (on (tracker st)).
      * destruct (turn_off (tracker st)) as [t pr]. intro H; inversion H; subst.
        now rewrite ds_commands_prints.
      * destruct (robot_state_value inp) as [rs|].
        -- destruct (turn_on (tracker st) (ee_pose rs)) as [t pr].
           intro H; inversion H; subst. now rewrite ds_commands_prints.
        -- intro H; inversion H; subst. reflexivity.
    + destruct (just_pressed (button_handler st) "right_stick"
                && negb (umi_mode (tracker st))).
      * destruct (turn_off (tracker st)) as [t pr]. intro H; inversion H; subst.
        destruct (recording st); cbn;
          rewrite ?ds_commands_app, ?ds_commands_prints; reflexivity.
      * intro H; inversion H; subst. reflexivity.
Qed.

Lemma read_and_handle_episodes (inp : TickInput) (st st1 : LoopState)
    (ev : list Event) (raised : option Exn) :
  read_and_handle inp st = (st1, ev, raised) ->
  episodes (recording st) (ds_commands ev) = Some (recording st1).
Proof.
  unfold read_and_handle.
  destruct (buttons_receiver_value inp) as [b|].
  - destruct (_parse_buttons b (button_handler st)) as [bh [e|]].
    + intro H; inversion H; subst. reflexivity.
    + intro H. apply handle_edges_episodes in H. exact H.
  - intro H; inversion H; subst. reflexivity.
Qed.

Lemma tick_episodes (inp : TickInput) (st st' : LoopState)
    (ev : list Event) (raised : option Exn) :
  tick inp st = (st', ev, raised) ->
  episodes (recording st) (ds_commands ev) = Some (recording st').
Proof.
  unfold tick, try_body.
  destruct (read_and_handle inp st) as [[st1 ev1] r1] eqn:R.
  apply read_and_handle_episodes in R.
  destruct r1 as [e|].
  - destruct e; intro H; inversion H; subst;
      rewrite ?ds_commands_app, ?app_nil_r; cbn; rewrite ?app_nil_r; exact R.
  - destruct (emit_targets_keeps inp st1) as (Kr & _ & _ & _ & Kd & _).
    destruct (emit_targets inp st1) as [st2 ev2]. cbn [fst snd] in *.
    intro H; inversion H; subst.
    rewrite !ds_commands_app, Kd. cbn. rewrite app_nil_r, Kr. exact R.
Qed.

(** Whatever the inputs, the recorder commands of a run follow the episode
    protocol. *)
Lemma run_from_episodes (inputs : list TickInput) (st st' : LoopState)
    (ev : list Event) (raised : option Exn) :
  run_from inputs st = (st', ev, raised) ->
  episodes (recording st) (ds_commands ev) = Some (recording st').
Proof.
  revert st st' ev raised.
  induction inputs as [|inp rest IH]; intros st st' ev raised; cbn.
  - intro H; inversion H; subst. reflexivity.
  - destruct (should_stop_value inp).
    + intro H; inversion H; subst. reflexivity.
    + destruct (tick inp st) as [[st1 ev1] r1] eqn:T.
      apply tick_episodes in T.
      destruct r1 as [e|].
      * intro H; inversion H; subst. exact T.
      * destruct (run_from rest st1) as [[st2 ev2] r2] eqn:Rn.
        apply IH in Rn. intro H; inversion H; subst.
        rewrite ds_commands_app. rewrite (episodes_app _ _ _ _ T). exact Rn.
Qed.

(** C4, as the loop has it: on a reset edge outside passthrough mode, on a
    tick where neither the record-toggle nor the tracking-toggle edge
    fired, a recording loop emits [ABORT] and plays the abort cue; in all
    cases the tracker is turned off, [Reset] is sent to the robot and the
    loop is idle afterwards; and whatever comes next, the first recorder
    command after that tick, if any, starts a new episode. *)
Theorem reset_edge (inp : TickInput) (st : LoopState)
    (buttons : Buttons) (bh : ButtonHandler) :
  buttons_receiver_value inp = Some buttons ->
  _parse_buttons buttons (button_handler st) = (bh, None) ->
  just_pressed bh "right_B" = false ->
  just_pressed bh "right_A" = false ->
  just_pressed bh "right_stick" = true ->
  umi_mode (tracker st) = false ->
  exists st' rest,
    tick inp st
    = (st',
       [PrintLine "Resetting robot"]
       ++ (if recording st
           then [ EmitDsAgentCommand DsWriterCommand_ABORT;
                  EmitSound abort_wav_path ]
           else [])
       ++ [PrintLine "Stopped tracking"; EmitRobotCommand Reset]
       ++ rest,
       None)
    /\ recording st' = false
    /\ on (tracker st') = false
    /\ ds_commands rest = []
    /\ forall inputs,
         match ds_commands (snd (fst (run_from inputs st'))) with
         | [] => True
         | c :: _ => c = START_EPISODE
         end.
Proof.
  intros Hb Hp HB HA HS HU.
  pose proof (read_and_handle_parsed _ _ _ _ Hb Hp) as R.
  unfold handle_edges in R. cbn [button_handler recording tracker] in R.
  rewrite HB, HA, HS, HU in R. cbn [andb negb] in R.
  unfold turn_off in R. rewrite HU in R. cbn [map] in R.
  rewrite (tick_completes _ _ _ _ R).
  match type of R with
  | _ = (?s1, _, _) =>
      destruct (emit_targets_keeps inp s1) as (Kr & _ & Kon & _ & Kd & _)
  end.
  cbn [recording tracker on] in Kr, Kon.
  eexists; eexists. split; [|split; [exact Kr|split; [exact Kon|split]]].
  - rewrite <- !app_assoc. reflexivity.
  - rewrite ds_commands_app, Kd. reflexivity.
  - intro inputs.
    destruct (run_from inputs _) as [[st2 ev2] r2] eqn:Rn.
    apply run_from_episodes in Rn. rewrite Kr in Rn. cbn [fst snd].
    now apply episodes_idle_head in Rn.
Qed.

End LoopFacts.

(* ================================================================== *)
(** * The loop on concrete ticks *)

Section LoopRuns.
Import Scenario.


(** C3 does not hold when two edges fire on one tick: B and A go down
    together, both rising edges are detected, the episode is started, but
    the tracker is not engaged. *)
Lemma tracking_edge_lost_behind_record_edge :
  let out := tick press_B_and_A start in
  just_pressed (button_handler (final_state out)) "right_B" = true
  /\ just_pressed (button_handler (final_state out)) "right_A" = true
  /\ on (tracker start) = false
  /\ on (tracker (final_state out)) = false
  /\ events out
     = [ CallMetadataGetter;
         EmitDsAgentCommand (mkDsWriterCommand START_EPISODE task_metadata);
         EmitSound start_wav_path;
         EmitTargetGrip 0;
         YieldSleep (1 # 1000) ].
Proof. repeat split. Qed.

(** The priority of the edges on the tick where B and A go down together:
    recording is toggled and the tracker is left as it was. *)
Lemma edges_by_priority_witness :
  let st := mkLoopState (tracker start)
              (button_handler (final_state (tick press_B_and_A start)))
              false in
  just_pressed (button_handler st) "right_B" = true
  /\ exists ev,
       handle_edges press_B_and_A st
       = (mkLoopState (tracker st) (button_handler st) true, ev, None)
       /\ ds_commands ev = [START_EPISODE]
       /\ robot_commands ev = [].
Proof.
  intro st. split; [reflexivity|].
  exact (proj1 (edges_by_priority press_B_and_A st) eq_refl).
Defined.

(** C4 does not hold when the reset edge comes with a record-toggle edge:
    while recording and tracking, B and the stick go down together; the
    episode is stopped, not aborted, the tracker stays engaged and the
    robot gets no [Reset]. *)
Lemma reset_edge_lost_behind_record_edge :
  let st := recording_and_tracking in
  let out := tick press_B_and_stick st in
  recording st = true
  /\ on (tracker st) = true
  /\ umi_mode (tracker st) = false
  /\ just_pressed (button_handler (final_state out)) "right_stick" = true
  /\ ds_commands (events out) = [STOP_EPISODE]
  /\ robot_commands (events out) = []
  /\ on (tracker (final_state out)) = true.
Proof. repeat split. Qed.

(** The reset edge alone, while recording. *)
Lemma reset_edge_witness :
  recording while_recording = true
  /\ exists st' rest,
       tick press_stick while_recording
       = (st',
          [PrintLine "Resetting robot"]
          ++ [ EmitDsAgentCommand DsWriterCommand_ABORT;
               EmitSound abort_wav_path ]
          ++ [PrintLine "Stopped tracking"; EmitRobotCommand Reset]
          ++ rest,
          None)
       /\ recording st' = false
       /\ on (tracker st') = false
       /\ ds_commands rest = []
       /\ forall inputs,
            match ds_commands (snd (fst (run_from inputs st'))) with
            | [] => True
            | c :: _ => c = START_EPISODE
            end.
Proof.
  split; [reflexivity|].
  exact (reset_edge press_stick while_recording
           (right_frame (1 # 2) 1 0 0)
           (fst (_parse_buttons (right_frame (1 # 2) 1 0 0)
                                (button_handler while_recording)))
           eq_refl eq_refl eq_refl eq_refl eq_refl eq_refl).
Defined.

(** The record-toggle edge from idle. *)
Lemma record_toggle_edge_witness :
  recording start = false
  /\ exists st' rest,
       tick press_B start
       = (st',
          [ CallMetadataGetter;
            EmitDsAgentCommand (mkDsWriterCommand START_EPISODE task_metadata);
            EmitSound start_wav_path ] ++ rest,
          None)
       /\ recording st' = true
       /\ ds_commands rest = [].
Proof.
  split; [reflexivity|].
  exact (record_toggle_edge press_B start (right_frame 0 0 0 1)
           (fst (_parse_buttons (right_frame 0 0 0 1) (button_handler start)))
           eq_refl eq_refl eq_refl).
Defined.


End LoopRuns.

(* ================================================================== *)
(** * Properties of the wiring *)

Module WireFacts.
Import Wire.

Lemma inputs_registered (agent : DsWriterAgent) (name : string) :
  In name (signals agent) -> inputs agent name = Some (port agent name).
Proof.
  intro H. unfold inputs.
  assert (E : existsb (String.eqb name) (signals agent) = true).
  { apply existsb_exists. exists name. split; [exact H | apply String.eqb_refl]. }
  now rewrite E.
Qed.

Lemma add_signals (names : list string) (agent : DsWriterAgent) :
  signals (fold_left add_signal names agent) = signals agent ++ names
  /\ port (fold_left add_signal names agent) = port agent.
Proof.
  revert agent. induction names as [|n names IH]; intro agent; cbn.
  - now rewrite app_nil_r.
  - destruct (IH (add_signal agent n)) as [-> ->]. cbn.
    now rewrite <- app_assoc.
Qed.

(** With the signal registered, the receivers collected in the loop are
    [declared_receivers], and collecting them leaves the world alone. *)
Lemma camera_receivers_registered (policy : Policy) (agent : DsWriterAgent)
    (gui : option Gui) (name : string) (w : World) :
  In name (signals agent) ->
  camera_receivers policy (Some agent) gui name w
  = (w, inr (declared_receivers policy (Some (port agent)) gui name)).
Proof.
  intro H. unfold camera_receivers, declared_receivers, bind, getitem, ret.
  rewrite (inputs_registered _ _ H). cbn.
  destruct gui; cbn; rewrite <- ?app_assoc; reflexivity.
Qed.

Lemma connect_camera_cases (e : Emitter) (rs : list Receiver) (w : World) :
  (rs = [] -> connect_camera e rs w = (w, inl (ValueError no_receivers_msg)))
  /\ (forall r, rs = [r] -> connect_camera e rs w = (w ++ [Connect e r], inr tt))
  /\ ((1 < List.length rs)%nat ->
      connect_camera e rs w = (w ++ [ConnectBroadcast e rs], inr tt)).
Proof.
  unfold connect_camera. repeat split.
  - intros ->. reflexivity.
  - intros r ->. reflexivity.
  - intro H. apply Nat.ltb_lt in H. now rewrite H.
Qed.

(** A receiver list that is not empty gets one connection. *)
Lemma connect_camera_some (e : Emitter) (rs : list Receiver) (w : World) :
  rs <> [] -> exists c, connect_camera e rs w = (w ++ [c], inr tt).
Proof.
  intro H. destruct rs as [|r [|r' rs]]; [congruence| |].
  - eexists. apply (proj1 (proj2 (connect_camera_cases e [r] w))). reflexivity.
  - eexists. apply (proj2 (proj2 (connect_camera_cases e _ w))). cbn. lia.
Qed.

(** The loop only adds connections. *)
Lemma wire_cameras_extends (policy : Policy) (agent : option DsWriterAgent)
    (gui : option Gui) (cams : list (string * Emitter)) (w : World) :
  exists ext, fst (wire_cameras policy agent gui cams w) = w ++ ext.
Proof.
  revert w. induction cams as [|[name e] cams IH]; intro w; cbn.
  - exists []. now rewrite app_nil_r.
  - unfold bind at 1.
    assert (R : exists rs, camera_receivers policy agent gui name w = (w, rs)).
    { unfold camera_receivers, bind, getitem, ret, raise.
      destruct agent as [a|]; [destruct (inputs a name)|]; eexists; reflexivity. }
    destruct R as [[x|rs] ->].
    + exists []. now rewrite app_nil_r.
    + unfold bind.
      unfold connect_camera, connect_broadcast, connect, raise.
      destruct (1 <? List.length rs)%nat.
      * destruct (IH (w ++ [ConnectBroadcast e rs])) as [ext E].
        exists ([ConnectBroadcast e rs] ++ ext). now rewrite app_assoc.
      * destruct (List.length rs =? 1)%nat.
        -- destruct rs as [|r rs].
           ++ exists []. now rewrite app_nil_r.
           ++ destruct (IH (w ++ [Connect e r])) as [ext E].
              exists ([Connect e r] ++ ext). now rewrite app_assoc.
        -- exists []. now rewrite app_nil_r.
Qed.

(** The loop over signals that all have a receiver goes through. *)
Lemma wire_cameras_app (policy : Policy) (agent : DsWriterAgent)
    (gui : option Gui) (pre rest : list (string * Emitter)) (w : World) :
  (forall n em, In (n, em) pre -> In n (signals agent)) ->
  (forall n em, In (n, em) pre ->
                declared_receivers policy (Some (port agent)) gui n <> []) ->
  exists ext,
    wire_cameras policy (Some agent) gui (pre ++ rest) w
    = wire_cameras policy (Some agent) gui rest (w ++ ext).
Proof.
  revert w. induction pre as [|[name e] pre IH]; intros w Hreg Hne; cbn.
  - exists []. now rewrite app_nil_r.
  - unfold bind at 1.
    rewrite camera_receivers_registered by (eapply Hreg; left; reflexivity).
    unfold bind at 1.
    destruct (connect_camera_some e _ w (Hne name e (or_introl eq_refl)))
      as [c ->].
    destruct (IH (w ++ [c])) as [ext E].
    + intros n em H. eapply Hreg. right. exact H.
    + intros n em H. eapply Hne. right. exact H.
    + exists ([c] ++ ext). rewrite E. now rewrite app_assoc.
Qed.

Lemma bind_ret {A C : Type} (a : A) (k : A -> M C) (w : World) :
  bind (ret a) k w = k a w.
Proof. reflexivity. Qed.

Lemma bind_connect {C : Type} (e : Emitter) (r : Receiver) (k : unit -> M C)
    (w : World) :
  bind (connect e r) k w = k tt (w ++ [Connect e r]).
Proof. reflexivity. Qed.

Lemma bind_getitem {A C : Type} (a : A) (k : A -> M C) (w : World) :
  bind (getitem (Some a)) k w = k a w.
Proof. reflexivity. Qed.

Lemma bind_getattr {A C : Type} (a : A) (k : A -> M C) (w : World) :
  bind (getattr (Some a)) k w = k a w.
Proof. reflexivity. Qed.

Lemma bind_assoc {A C D : Type} (c : M A) (f : A -> M C) (k : C -> M D)
    (w : World) :
  bind (bind c f) k w = bind c (fun a => bind (f a) k) w.
Proof. unfold bind. destruct (c w) as [w' [e|a]]; reflexivity. Qed.

Lemma signals_add_signal (agent : DsWriterAgent) (name : string) :
  signals (add_signal agent name) = signals agent ++ [name].
Proof. reflexivity. Qed.

Lemma port_add_signal (agent : DsWriterAgent) (name : string) :
  port (add_signal agent name) = port agent.
Proof. reflexivity. Qed.

(** The recorder as [wire] sets it up: the camera signals, then the four
    fixed ones. *)
Lemma wire_agent (make_port : string -> Receiver) (writer : DatasetWriter)
    (time_mode : TimeMode) (names : list string) :
  let agent :=
    add_signal
      (add_signal
         (add_signal
            (add_signal
               (fold_left add_signal names
                  (mkDsWriterAgent writer time_mode make_port []))
               "target_grip") "robot_commands") "robot_state") "grip" in
  port agent = make_port
  /\ (forall n, In n names -> In n (signals agent))
  /\ (forall n, In n ["target_grip"; "robot_commands"; "robot_state"; "grip"] ->
                inputs agent n = Some (make_port n)).
Proof.
  intro agent.
  assert (Hs : signals agent
               = names ++ ["target_grip"; "robot_commands"; "robot_state"; "grip"]).
  { unfold agent. rewrite !signals_add_signal.
    rewrite (proj1 (add_signals _ _)). cbn [signals app].
    now rewrite <- !app_assoc. }
  assert (Hp : port agent = make_port).
  { unfold agent. rewrite !port_add_signal.
    now rewrite (proj2 (add_signals _ _)). }
  split; [exact Hp|]. split.
  - intros n H. rewrite Hs. apply in_or_app. now left.
  - intros n H. rewrite <- Hp. apply inputs_registered. rewrite Hs.
    apply in_or_app. now right.
Qed.

(** With a robot arm, a dataset writer and cameras, [wire] reaches the
    camera loop with every camera signal registered at the recorder. *)
Lemma wire_reaches_cameras (make_port : string -> Receiver) (policy : Policy)
    (writer : DatasetWriter) (cams : list (string * Emitter)) (arm : RobotArm)
    (gripper : option Gripper) (gui : option Gui) (time_mode : TimeMode)
    (w : World) :
  cams <> [] ->
  exists agent ext,
    port agent = make_port
    /\ (forall n em, In (n, em) cams -> In n (signals agent))
    /\ wire make_port policy (Some writer) (Some cams) (Some arm) gripper gui
            time_mode w
       = bind (wire_cameras policy (Some agent) gui cams)
              (fun _ => ret (Some agent)) (w ++ ext).
Proof.
  intro Hne. unfold wire. cbv zeta.
  destruct (wire_agent make_port writer time_mode (map fst cams))
    as (Hp & Hreg & Hin).
  set (agent :=
         add_signal
           (add_signal
              (add_signal
                 (add_signal
                    (fold_left add_signal (map fst cams)
                       (mkDsWriterAgent writer time_mode make_port []))
                    "target_grip") "robot_commands") "robot_state") "grip")
    in *.
  exists agent.
  assert (Hreg' : forall n em, In (n, em) cams -> In n (signals agent)).
  { intros n em H. apply Hreg. change n with (fst (n, em)). now apply in_map. }
  rewrite bind_getattr, bind_connect, bind_connect.
  destruct gripper as [g|].
  - rewrite bind_assoc, !bind_connect, bind_getattr. fold agent.
    rewrite !Hin by (cbn; tauto).
    rewrite bind_getitem, bind_connect, bind_getitem, bind_connect,
            bind_getitem, bind_connect.
    rewrite bind_assoc, bind_getitem, bind_connect.
    destruct cams as [|c cams']; [congruence|].
    eexists. split; [exact Hp|]. split; [exact Hreg'|].
    rewrite <- !app_assoc. reflexivity.
  - rewrite bind_ret, bind_getattr. fold agent.
    rewrite !Hin by (cbn; tauto).
    rewrite bind_getitem, bind_connect, bind_getitem, bind_connect,
            bind_getitem, bind_connect, bind_ret.
    destruct cams as [|c cams']; [congruence|].
    eexists. split; [exact Hp|]. split; [exact Hreg'|].
    rewrite <- !app_assoc. reflexivity.
Qed.

Lemma bind_fst_ret {A C : Type} (c : M A) (x : C) (w : World) :
  fst (bind c (fun _ => ret x) w) = fst (c w).
Proof. unfold bind, ret. destruct (c w) as [w' [e|a]]; reflexivity. Qed.

Lemma bind_raised {A C : Type} (c : M A) (k : A -> M C) (w : World) (e : Exn) :
  snd (c w) = inl e -> snd (bind c k w) = inl e.
Proof.
  unfold bind. destruct (c w) as [w' [e'|a]]; cbn; intro H;
    [now inversion H | discriminate].
Qed.

(** C9, where [wire] departs from it: the camera loop (lines 46-65) stands
    inside the block of [if dataset_writer is not None], so without a
    dataset writer it is not run.  With the data collection policy, whose
    [frames] are fake receivers, and no GUI, the camera signal has no
    receiver left after the filter, yet [wire] raises nothing: it returns
    [None] with the two connections of the robot arm, and the camera is
    connected to nothing.  With a GUI one receiver is left, and still no
    connection is made to it. *)
Lemma camera_dropped_without_recorder :
  (declared_receivers WireScenario.policy None None "image.left" = []
   /\ WireScenario.without_recorder
      = ([ Connect "policy.robot_commands" (WireScenario.real "arm.commands");
           Connect "arm.state" (WireScenario.real "policy.robot_state") ],
         inr None))
  /\ (declared_receivers WireScenario.policy None (Some WireScenario.gui)
        "image.left"
      = [WireScenario.real "gui.cameras.image.left"]
      /\ WireScenario.gui_without_recorder
         = ([ Connect "policy.robot_commands" (WireScenario.real "arm.commands");
              Connect "arm.state" (WireScenario.real "policy.robot_state") ],
            inr None)).
Proof. repeat split. Qed.

End WireFacts.

(* ================================================================== *)
(** * More on the tracker *)

Section TrackerHistory.
Context {G : Geometry}.

Lemma call_keeps_operator_position (t : _Tracker) (c : TrackerCall) :
  _operator_position (call t c) = _operator_position t.
Proof.
  destruct c as [P| |p]; cbn [call].
  - unfold turn_on. destruct (umi_mode t); reflexivity.
  - unfold turn_off. destruct (umi_mode t); reflexivity.
  - apply update_keeps.
Qed.

Lemma calls_snoc (t : _Tracker) (cs : list TrackerCall) (c : TrackerCall) :
  calls t (cs ++ [c]) = call (calls t cs) c.
Proof. unfold calls. now rewrite fold_left_app. Qed.

Lemma calls_cons (t : _Tracker) (cs : list TrackerCall) (c : TrackerCall) :
  calls t (c :: cs) = calls (call t c) cs.
Proof. reflexivity. Qed.

Lemma calls_keep_operator_position (t : _Tracker) (cs : list TrackerCall) :
  _operator_position (calls t cs) = _operator_position t.
Proof.
  revert t. induction cs as [|c cs IH]; intro t; [reflexivity|].
  rewrite calls_cons, IH. apply call_keeps_operator_position.
Qed.

(** X1: the mode of a tracker is fixed at construction: no sequence of calls
    changes the operator calibration, so a passthrough tracker stays one
    and a calibrated tracker keeps its calibration. *)
Theorem calibration_never_changes (t : _Tracker) (cs : list TrackerCall) :
  _operator_position (calls t cs) = _operator_position t
  /\ umi_mode (calls t cs) = umi_mode t.
Proof.
  pose proof (calls_keep_operator_position t cs) as H.
  split; [exact H|]. unfold umi_mode. now rewrite H.
Qed.

(** X2: the offset is written by [turn_on] only: a sequence of [turn_off] and
    [update] calls leaves it as it was, so the offset of the last engage is
    still there after a disengage. *)
Theorem offset_written_only_by_turn_on (t : _Tracker) (cs : list TrackerCall) :
  forallb (fun c => negb (is_turn_on c)) cs = true ->
  _offset (calls t cs) = _offset t.
Proof.
  revert t. induction cs as [|c cs IH]; intros t H; [reflexivity|].
  cbn [forallb] in H. apply andb_prop in H. destruct H as [Hc Hcs].
  rewrite calls_cons, (IH _ Hcs).
  destruct c as [P| |p]; cbn [call].
  - discriminate.
  - unfold turn_off. destruct (umi_mode t); reflexivity.
  - apply update_keeps.
Qed.

(** The last mapped controller pose is written by [update] only. *)
Lemma teleop_written_only_by_update (t : _Tracker) (cs : list TrackerCall) :
  forallb (fun c => negb (is_update c)) cs = true ->
  _teleop_t (calls t cs) = _teleop_t t
  /\ _operator_position (calls t cs) = _operator_position t.
Proof.
  intro H. split; [|apply calls_keep_operator_position].
  revert t H. induction cs as [|c cs IH]; intros t H; [reflexivity|].
  cbn [forallb] in H. apply andb_prop in H. destruct H as [Hc Hcs].
  rewrite calls_cons, (IH _ Hcs).
  destruct c as [P| |p]; cbn [call].
  - unfold turn_on. destruct (umi_mode t); reflexivity.
  - unfold turn_off. destruct (umi_mode t); reflexivity.
  - discriminate.
Qed.

(** X3: engaging forgets the toggling history: after any sequence of [turn_on]
    and [turn_off] calls, with whatever robot poses, [turn_on P] leaves the
    tracker exactly as [turn_on P] on the tracker before that sequence. *)
Theorem engage_forgets_toggles
    (t : _Tracker) (cs : list TrackerCall) (P : Transform3D) :
  forallb (fun c => negb (is_update c)) cs = true ->
  fst (turn_on (calls t cs) P) = fst (turn_on t P).
Proof.
  intro H.
  destruct (teleop_written_only_by_update t cs H) as [Ht Hop].
  destruct (umi_mode t) eqn:U.
  - rewrite (calls_umi cs t U). reflexivity.
  - unfold turn_on.
    replace (umi_mode (calls t cs)) with (umi_mode t)
      by (unfold umi_mode; now rewrite Hop).
    rewrite U, Ht, Hop. reflexivity.
Qed.

Section ExactHistory.
Context {L : GeometryLaws G}.

Lemma vadd_cancel_r (a b p : vec) :
  vadd (vadd a (vadd b p)) (vneg p) = vadd a b.
Proof.
  rewrite (vadd_assoc a b p), <- (vadd_assoc (vadd a b) p (vneg p)).
  now rewrite vadd_neg_r, vadd_0_r.
Qed.

Lemma updates_keep (t : _Tracker) (poses : list Transform3D) :
  _operator_position (calls t (map CallUpdate poses)) = _operator_position t
  /\ on (calls t (map CallUpdate poses)) = on t
  /\ _offset (calls t (map CallUpdate poses)) = _offset t.
Proof.
  revert t. induction poses as [|p ps IH]; intro t; [cbn; auto|].
  cbn [map]. rewrite calls_cons. cbn [call].
  destruct (IH (fst (update t p))) as (-> & -> & ->).
  apply update_keeps.
Qed.

(** X4: before the first engage a calibrated tracker hands back the mapped
    controller pose itself: [update] on a new tracker returns
    calibration * pose * inverse(calibration). *)
Theorem update_before_first_engage (op c : Transform3D) :
  snd (update (Tracker_init (Some op)) c) = mapped op c.
Proof.
  unfold update, Tracker_init. cbn [_operator_position _offset snd].
  fold (mapped op c). unfold Transform3D_default. cbn [translation rotation].
  rewrite vadd_0_r, rmul_1_r.
  destruct (mapped op c); reflexivity.
Qed.

(** X5: while engaged, the target follows the controller: after engaging at
    robot pose [P] with the controller at [c0], and any further updates,
    [update c] returns a target whose translation differs from [P]'s by
    the displacement of the mapped controller pose since the engage, and
    whose rotation is mapped(c) * inverse(mapped(c0)) * P.rotation. *)
Theorem engaged_target_follows_controller
    (t0 : _Tracker) (op c0 P c : Transform3D) (poses : list Transform3D) :
  _operator_position t0 = Some op ->
  let t1 := fst (turn_on (fst (update t0 c0)) P) in
  let t2 := calls t1 (map CallUpdate poses) in
  let target := snd (update t2 c) in
  on t2 = true
  /\ vadd (translation target) (vneg (translation P))
     = vadd (translation (mapped op c)) (vneg (translation (mapped op c0)))
  /\ rotation target
     = rmul (rotation (mapped op c))
            (rmul (rinv (rotation (mapped op c0))) (rotation P)).
Proof.
  intros Hop t1 t2 target.
  assert (H0 : _operator_position (fst (update t0 c0)) = Some op).
  { destruct (update_keeps t0 c0) as (-> & _). exact Hop. }
  assert (T0 : _teleop_t (fst (update t0 c0)) = mapped op c0)
    by now apply update_teleop.
  assert (E1 : t1 = mk_Tracker (Some op) true
            (mkTransform3D
               (vadd (vneg (translation (mapped op c0))) (translation P))
               (rmul (rinv (rotation (mapped op c0))) (rotation P)))
            (mapped op c0)).
  { unfold t1, turn_on. rewrite (umi_mode_Some _ _ H0), H0, T0. reflexivity. }
  destruct (updates_keep t1 poses) as (Kop & Kon & Koff).
  fold t2 in Kop, Kon, Koff. rewrite E1 in Kop, Kon, Koff.
  cbn [_operator_position on _offset] in Kop, Kon, Koff.
  split; [exact Kon|].
  unfold target, update. rewrite Kop, Koff. fold (mapped op c).
  cbn [snd translation rotation].
  split; [|reflexivity].
  apply vadd_cancel_r.
Qed.
End ExactHistory.
End TrackerHistory.

Section TrackerHistoryRuns.
Import Scenario.

(** A disengage and a controller move after an engage: the offset of the
    engage is still there. *)
Lemma offset_written_only_by_turn_on_witness :
  let engaged :=
    fst (turn_on (fst (update (Tracker_init (Some calibration)) controller_pose))
                 robot_pose) in
  _offset (calls engaged [CallTurnOff; CallUpdate (pose 5 5 5 Lattice.Turn1)])
  = _offset engaged.
Proof.
  intro engaged.
  exact (offset_written_only_by_turn_on engaged
           [CallTurnOff; CallUpdate (pose 5 5 5 Lattice.Turn1)] eq_refl).
Defined.

(** Toggling with other robot poses before engaging at the robot pose. *)
Lemma engage_forgets_toggles_witness :
  let t := fst (update (Tracker_init (Some calibration)) controller_pose) in
  fst (turn_on (calls t [CallTurnOn (pose 0 0 1 Lattice.Turn0); CallTurnOff;
                         CallTurnOn (pose 9 9 9 Lattice.Turn3)])
               robot_pose)
  = fst (turn_on t robot_pose).
Proof.
  intro t.
  exact (engage_forgets_toggles t
           [CallTurnOn (pose 0 0 1 Lattice.Turn0); CallTurnOff;
            CallTurnOn (pose 9 9 9 Lattice.Turn3)] robot_pose eq_refl).
Defined.

(** The first update of a new tracker on the lattice. *)
Lemma update_before_first_engage_witness :
  snd (update (Tracker_init (Some calibration)) controller_pose)
  = mapped calibration controller_pose.
Proof.
  exact (update_before_first_engage (L := Lattice_laws)
           calibration controller_pose).
Defined.

(** Engaged at the controller pose, then the controller moves twice. *)
Lemma engaged_target_follows_controller_witness :
  let t1 :=
    fst (turn_on (fst (update (Tracker_init (Some calibration)) controller_pose))
                 robot_pose) in
  let t2 := calls t1 (map CallUpdate [pose 2 2 3 Lattice.Turn3]) in
  let target := snd (update t2 (pose 4 0 3 Lattice.Turn0)) in
  vadd (translation target) (vneg (translation robot_pose))
  = vadd (translation (mapped calibration (pose 4 0 3 Lattice.Turn0)))
         (vneg (translation (mapped calibration controller_pose))).
Proof.
  intros t1 t2 target.
  exact (proj1 (proj2
           (engaged_target_follows_controller (L := Lattice_laws)
              (Tracker_init (Some calibration)) calibration controller_pose
              robot_pose (pose 4 0 3 Lattice.Turn0) [pose 2 2 3 Lattice.Turn3]
              eq_refl))).
Defined.

End TrackerHistoryRuns.

(* ================================================================== *)
(** * More on the button frames *)

Section ParseFacts.
Context {B : ButtonHandlerOps}.

(** The mapping of a side is built exactly when the array has six
    entries or more. *)
Lemma side_mapping_none (side : string) (arr : list Q) :
  side_mapping side arr = None <-> (List.length arr < 6)%nat.
Proof.
  destruct arr as [|a0 [|a1 [|a2 [|a3 [|a4 [|a5 rest]]]]]]; cbn;
    split; intro H; try reflexivity; try lia; discriminate.
Qed.

Lemma side_mapping_some (side : string) (arr : list Q) :
  (6 <=? List.length arr)%nat = true ->
  exists mapping, side_mapping side arr = Some mapping.
Proof.
  intro H. apply Nat.leb_le in H.
  destruct (side_mapping side arr) as [m|] eqn:E; [now exists m|].
  apply side_mapping_none in E. lia.
Qed.

Lemma side_mapping_short (side : string) (arr : list Q) :
  (6 <=? List.length arr)%nat = false -> side_mapping side arr = None.
Proof.
  intro H. apply Nat.leb_gt in H. now apply side_mapping_none.
Qed.

Lemma parse_buttons_raised (buttons : Buttons) (bh : ButtonHandler) :
  snd (_parse_buttons buttons bh)
  = if long_enough (buttons "left") && long_enough (buttons "right")
    then None else Some IndexError.
Proof.
  unfold _parse_buttons. cbn [parse_sides]. unfold long_enough.
  destruct (buttons "left") as [l|].
  - destruct (6 <=? List.length l)%nat eqn:Hl.
    + destruct (side_mapping_some "left" l Hl) as [ml ->]. cbn [andb].
      destruct (buttons "right") as [r|]; [|reflexivity].
      destruct (6 <=? List.length r)%nat eqn:Hr.
      * destruct (side_mapping_some "right" r Hr) as [mr ->]. reflexivity.
      * now rewrite (side_mapping_short "right" r Hr).
    + now rewrite (side_mapping_short "left" l Hl).
  - cbn [andb]. destruct (buttons "right") as [r|]; [|reflexivity].
    destruct (6 <=? List.length r)%nat eqn:Hr.
    + destruct (side_mapping_some "right" r Hr) as [mr ->]. reflexivity.
    + now rewrite (side_mapping_short "right" r Hr).
Qed.

(** X6: [_parse_buttons] raises exactly when a connected side has fewer than
    six entries, and what it raises is [IndexError]; sides that are not
    connected never make it fail. *)
Theorem parse_buttons_raises_on_short_arrays
    (buttons : Buttons) (bh : ButtonHandler) :
  snd (_parse_buttons buttons bh)
  = if long_enough (buttons "left") && long_enough (buttons "right")
    then None else Some IndexError.
Proof. apply parse_buttons_raised. Qed.
End ParseFacts.

(* ================================================================== *)
(** * More on the control loop *)

Section LoopTraces.
Context {G : Geometry} {B : ButtonHandlerOps}.

Lemma sleeps_app (a b : list Event) : sleeps (a ++ b) = sleeps a ++ sleeps b.
Proof.
  induction a as [|e a IH]; [reflexivity|].
  destruct e; cbn; now rewrite ?IH.
Qed.

Lemma sounds_app (a b : list Event) : sounds (a ++ b) = sounds a ++ sounds b.
Proof.
  induction a as [|e a IH]; [reflexivity|].
  destruct e; cbn; now rewrite ?IH.
Qed.

Lemma ds_agent_commands_app (a b : list Event) :
  ds_agent_commands (a ++ b) = ds_agent_commands a ++ ds_agent_commands b.
Proof.
  induction a as [|e a IH]; [reflexivity|].
  destruct e; cbn; now rewrite ?IH.
Qed.

Lemma metadata_calls_app (a b : list Event) :
  metadata_calls (a ++ b) = (metadata_calls a + metadata_calls b)%nat.
Proof.
  induction a as [|e a IH]; [reflexivity|].
  destruct e; cbn; now rewrite ?IH.
Qed.

Lemma views_of_prints (ls : list string) :
  sleeps (map PrintLine ls) = []
  /\ sounds (map PrintLine ls) = []
  /\ ds_agent_commands (map PrintLine ls) = []
  /\ metadata_calls (map PrintLine ls) = O.
Proof. induction ls; cbn; auto. Qed.

Ltac close_views :=
  cbn;
  rewrite ?sleeps_app, ?sounds_app, ?ds_agent_commands_app, ?metadata_calls_app,
          ?ds_commands_app, ?robot_commands_app;
  rewrite ?(proj1 (views_of_prints _)),
          ?(proj1 (proj2 (views_of_prints _))),
          ?(proj1 (proj2 (proj2 (views_of_prints _)))),
          ?(proj2 (proj2 (proj2 (views_of_prints _)))),
          ?ds_commands_prints, ?robot_commands_prints;
  cbn; auto.

(** What one pass through the edge handling can do. *)
Lemma handle_edges_views (inp : TickInput) (st st1 : LoopState)
    (ev : list Event) (raised : option Exn) :
  handle_edges inp st = (st1, ev, raised) ->
  sleeps ev = []
  /\ sounds ev = map cue (ds_commands ev)
  /\ metadata_calls ev = episodes_started (ds_commands ev)
  /\ Forall (metadata_of inp) (ds_agent_commands ev)
  /\ (raised = None \/ raised = Some NoValueException)
  /\ (List.length (ds_commands ev) <= 1)%nat
  /\ (robot_commands ev = [] \/
      (robot_commands ev = [Reset] /\ on (tracker st1) = false
       /\ umi_mode (tracker st) = false))
  /\ (umi_mode (tracker st) = true ->
      tracker st1 = tracker st /\ ~ In ABORT_EPISODE (ds_commands ev))
  /\ button_handler st1 = button_handler st.
Proof.
  unfold handle_edges.
  destruct (just_pressed (button_handler st) "right_B").
  - destruct (recording st); intro H; inversion H; subst; clear H;
      repeat split; close_views;
      try (repeat constructor; reflexivity);
      try (intros [E|[]]; discriminate).
  - destruct (just_pressed (button_handler st) "right_A").
    + destruct (on (tracker st)).
      * destruct (turn_off (tracker st)) as [t pr] eqn:T.
        intro H; inversion H; subst; clear H.
        repeat split; close_views.
        match goal with
        | U : umi_mode _ = true |- _ =>
            pose proof (turn_off_umi _ U) as E; now rewrite T in E
        end.
      * destruct (robot_state_value inp) as [rs|].
        -- destruct (turn_on (tracker st) (ee_pose rs)) as [t pr] eqn:T.
           intro H; inversion H; subst; clear H.
           repeat split; close_views.
           match goal with
           | U : umi_mode _ = true |- _ =>
               pose proof (turn_on_umi _ (ee_pose rs) U) as E;
               now rewrite T in E
           end.
        -- intro H; inversion H; subst; clear H. repeat split; close_views.
    + destruct (just_pressed (button_handler st) "right_stick"
                && negb (umi_mode (tracker st))) eqn:C.
      * apply andb_prop in C. destruct C as [_ C].
        apply negb_true_iff in C.
        unfold turn_off. rewrite C.
        destruct (recording st); intro H; inversion H; subst; clear H;
          repeat split; close_views;
          try (repeat constructor; reflexivity);
          try congruence.
      * intro H; inversion H; subst; clear H. repeat split; close_views.
Qed.

(** What [emit_targets] emits besides the grip target. *)
Lemma emit_targets_views (inp : TickInput) (st : LoopState) :
  sleeps (snd (emit_targets inp st)) = []
  /\ sounds (snd (emit_targets inp st)) = []
  /\ ds_agent_commands (snd (emit_targets inp st)) = []
  /\ metadata_calls (snd (emit_targets inp st)) = O
  /\ robot_commands (snd (emit_targets inp st))
     = (if updated (controller_positions_read inp) && on (tracker st)
        then [CartesianPosition
                (snd (update (tracker st)
                             (data_right (controller_positions_read inp))))]
        else [])
  /\ (umi_mode (tracker st) = true ->
      tracker (fst (emit_targets inp st)) = tracker st).
Proof.
  unfold emit_targets.
  destruct (updated (controller_positions_read inp)); cbn [andb].
  - pose proof (update_keeps (tracker st)
                  (data_right (controller_positions_read inp))) as (_ & Kon & _).
    pose proof (update_umi (tracker st)
                  (data_right (controller_positions_read inp))) as Ku.
    destruct (update (tracker st) (data_right (controller_positions_read inp)))
      as [t target].
    cbn [fst snd] in *. rewrite <- Kon.
    destruct (on t); repeat split; cbn; auto;
      intro U; specialize (Ku U); now inversion Ku.
  - repeat split; cbn; auto.
Qed.

Lemma read_and_handle_views (inp : TickInput) (st st1 : LoopState)
    (ev : list Event) (raised : option Exn) :
  read_and_handle inp st = (st1, ev, raised) ->
  sleeps ev = []
  /\ sounds ev = map cue (ds_commands ev)
  /\ metadata_calls ev = episodes_started (ds_commands ev)
  /\ Forall (metadata_of inp) (ds_agent_commands ev)
  /\ (List.length (ds_commands ev) <= 1)%nat
  /\ (robot_commands ev = [] \/
      (robot_commands ev = [Reset] /\ on (tracker st1) = false
       /\ umi_mode (tracker st) = false))
  /\ (umi_mode (tracker st) = true ->
      tracker st1 = tracker st /\ ~ In ABORT_EPISODE (ds_commands ev))
  /\ (raised <> None -> ev = []).
Proof.
  unfold read_and_handle.
  destruct (buttons_receiver_value inp) as [b|].
  - destruct (_parse_buttons b (button_handler st)) as [bh [e|]].
    + intro H; inversion H; subst. cbn. repeat split; auto.
    + intro H. pose proof (handle_edges_views _ _ _ _ _ H)
        as (V1 & V2 & V3 & V4 & V5 & V6 & V7 & V8 & _).
      cbn [tracker] in *.
      repeat split; auto; try (apply V8; assumption).
      intro R. unfold handle_edges in H. cbn [button_handler tracker recording] in H.
      destruct raised as [e|]; [|congruence].
      destruct (just_pressed bh "right_B").
      { destruct (negb (recording st)); inversion H. }
      destruct (just_pressed bh "right_A").
      { destruct (on (tracker st)).
        - destruct (turn_off (tracker st)); inversion H.
        - destruct (robot_state_value inp).
          + destruct (turn_on (tracker st) (ee_pose r)); inversion H.
          + now inversion H. }
      destruct (just_pressed bh "right_stick" && negb (umi_mode (tracker st))).
      { destruct (turn_off (tracker st)); inversion H. }
      now inversion H.
  - intro H; inversion H; subst. cbn. repeat split; auto.
Qed.

(** What one iteration can do. *)
Lemma tick_views (inp : TickInput) (st st' : LoopState)
    (ev : list Event) (raised : option Exn) :
  tick inp st = (st', ev, raised) ->
  sounds ev = map cue (ds_commands ev)
  /\ metadata_calls ev = episodes_started (ds_commands ev)
  /\ Forall (metadata_of inp) (ds_agent_commands ev)
  /\ (List.length (ds_commands ev) <= 1)%nat
  /\ (List.length (robot_commands ev) <= 1)%nat
  /\ (List.length (grip_targets ev) <= 1)%nat
  /\ (raised = None ->
      sleeps ev = [1 # 1000]
      /\ exists ev0, ev = ev0 ++ [YieldSleep (1 # 1000)])
  /\ (raised <> None -> ev = [])
  /\ (umi_mode (tracker st) = true ->
      tracker st' = tracker st
      /\ ~ In ABORT_EPISODE (ds_commands ev)
      /\ ~ In Reset (robot_commands ev)).
Proof.
  unfold tick, try_body.
  destruct (read_and_handle inp st) as [[st1 ev1] r1] eqn:R.
  pose proof (read_and_handle_views _ _ _ _ _ R)
    as (V1 & V2 & V3 & V4 & V5 & V6 & V7 & V8).
  assert (Hg : grip_targets ev1 = []).
  { unfold read_and_handle in R.
    destruct (buttons_receiver_value inp) as [b|];
      [|now inversion R].
    destruct (_parse_buttons b (button_handler st)) as [bh [e|]];
      [now inversion R|].
    now destruct (handle_edges_events _ _ _ _ _ R). }
  destruct r1 as [e|].
  - assert (E1 : ev1 = []) by (apply V8; discriminate). subst ev1.
    assert (Hu : umi_mode (tracker st) = true ->
                 tracker st1 = tracker st) by (intro U; now apply V7).
    destruct e; intro H; inversion H; subst; clear H; cbn;
      (repeat split; auto; try congruence; try discriminate;
       try (now exists []); try lia).
  - destruct (emit_targets_keeps inp st1) as (_ & _ & _ & _ & Kd & Kg).
    destruct (emit_targets_views inp st1) as (W1 & W2 & W3 & W4 & W5 & W6).
    destruct (emit_targets inp st1) as [st2 ev2]. cbn [fst snd] in *.
    intro H; inversion H; subst; clear H.
    rewrite !sounds_app, !ds_commands_app, !ds_agent_commands_app,
            !metadata_calls_app, !robot_commands_app, !grip_targets_app,
            !sleeps_app.
    rewrite W1, W2, W3, W4, W5, Kd, Kg, V1, V2, V3, Hg. cbn.
    rewrite !app_nil_r, ?Nat.add_0_r.
    repeat apply conj; auto; try discriminate;
      try (intro X; exfalso; now apply X).
    + destruct V6 as [E|(E & Hoff & _)]; rewrite E.
      * destruct (updated (controller_positions_read inp) && on (tracker st1));
          cbn; lia.
      * rewrite Hoff, andb_false_r. cbn. lia.
    + intros _. split; [reflexivity|].
      eexists. rewrite app_assoc. reflexivity.
    + intro U. destruct (V7 U) as [T Hab].
      repeat apply conj.
      * rewrite <- T. apply W6. now rewrite T.
      * exact Hab.
      * destruct V6 as [E|(_ & _ & U')]; [|congruence]. rewrite E. cbn.
        destruct (updated (controller_positions_read inp) && on (tracker st1));
          cbn; [|tauto].
        intros [X|[]]. discriminate.
Qed.


(** X8: an iteration that does not raise yields exactly one sleep, of one
    millisecond, and the yield is the last thing it does. *)
Theorem tick_yields_once (inp : TickInput) (st st' : LoopState)
    (ev : list Event) :
  tick inp st = (st', ev, None) ->
  sleeps ev = [1 # 1000]
  /\ exists ev0, ev = ev0 ++ [YieldSleep (1 # 1000)].
Proof.
  intro T. now apply (tick_views _ _ _ _ _ T).
Qed.

(** X9: one iteration sends at most one recorder command, at most one robot
    command (a [Reset] and a Cartesian target never go out together) and
    at most one grip target. *)
Theorem tick_sends_at_most_one_of_each (inp : TickInput) (st : LoopState) :
  let ev := snd (fst (tick inp st)) in
  (List.length (ds_commands ev) <= 1)%nat
  /\ (List.length (robot_commands ev) <= 1)%nat
  /\ (List.length (grip_targets ev) <= 1)%nat.
Proof.
  destruct (tick inp st) as [[st' ev] r] eqn:T. cbn [fst snd].
  pose proof (tick_views _ _ _ _ _ T) as (_ & _ & _ & H1 & H2 & H3 & _).
  auto.
Qed.

(** X10: pressing A to engage while no robot state has arrived: the press is
    taken by the button handler, the tracker stays disengaged, and the
    iteration yields without emitting anything, the grip target included. *)
Theorem engage_without_robot_state (inp : TickInput) (st : LoopState)
    (buttons : Buttons) (bh : ButtonHandler) :
  buttons_receiver_value inp = Some buttons ->
  _parse_buttons buttons (button_handler st) = (bh, None) ->
  just_pressed bh "right_B" = false ->
  just_pressed bh "right_A" = true ->
  on (tracker st) = false ->
  robot_state_value inp = None ->
  tick inp st
  = (mkLoopState (tracker st) bh (recording st), [YieldSleep (1 # 1000)], None).
Proof.
  intros Hb Hp HB HA Hon Hrs.
  unfold tick, try_body.
  rewrite (read_and_handle_parsed _ _ _ _ Hb Hp).
  unfold handle_edges. cbn [button_handler tracker recording].
  now rewrite HB, HA, Hon, Hrs.
Qed.

Lemma episodes_started_app (a b : list DsWriterCommandType) :
  episodes_started (a ++ b) = (episodes_started a + episodes_started b)%nat.
Proof.
  induction a as [|c a IH]; [reflexivity|].
  destruct c; cbn; now rewrite ?IH.
Qed.

(** X11: the run up to a stop signal: the inputs from the first iteration that
    sees [should_stop] on are never looked at. *)
Theorem run_stops_at_stop_signal
    (before after : list TickInput) (inp : TickInput) (st : LoopState) :
  should_stop_value inp = true ->
  run_from (before ++ inp :: after) st = run_from before st.
Proof.
  intro Hs. revert st.
  induction before as [|i before IH]; intro st; cbn [app run_from].
  - now rewrite Hs.
  - destruct (should_stop_value i); [reflexivity|].
    destruct (tick i st) as [[st1 ev1] [e|]]; [reflexivity|].
    now rewrite IH.
Qed.

(** X12: whatever the inputs, the recorder commands of a run follow the episode
    protocol from idle: a start only when no episode is open, a stop or an
    abort only when one is; and the loop is recording at the end exactly
    when the last episode is still open. *)
Theorem run_follows_episode_protocol
    (operator_position : option Transform3D) (inputs : list TickInput) :
  episodes false (ds_commands (snd (fst (run operator_position inputs))))
  = Some (recording (fst (fst (run operator_position inputs)))).
Proof.
  unfold run.
  destruct (run_from inputs (run_init operator_position)) as [[st' ev] r] eqn:R.
  apply run_from_episodes in R. exact R.
Qed.

(** X13: in a run every recorder command comes with its sound cue and nothing
    else is played: the sounds are the cues of the commands, in order. *)
Theorem run_cues_match_commands (inputs : list TickInput) (st : LoopState) :
  sounds (snd (fst (run_from inputs st)))
  = map cue (ds_commands (snd (fst (run_from inputs st)))).
Proof.
  revert st. induction inputs as [|inp rest IH]; intro st; cbn [run_from].
  - reflexivity.
  - destruct (should_stop_value inp); [reflexivity|].
    destruct (tick inp st) as [[st1 ev1] r1] eqn:T.
    pose proof (tick_views _ _ _ _ _ T) as (V & _).
    destruct r1 as [e|]; [exact V|].
    specialize (IH st1).
    destruct (run_from rest st1) as [[st2 ev2] r2]. cbn [fst snd] in *.
    now rewrite sounds_app, ds_commands_app, map_app, V, IH.
Qed.


(** A run from a state whose tracker is in passthrough mode leaves the
    tracker untouched and never sends [Reset] or [ABORT]. *)
Lemma run_from_passthrough (inputs : list TickInput) (st : LoopState) :
  umi_mode (tracker st) = true ->
  tracker (fst (fst (run_from inputs st))) = tracker st
  /\ ~ In Reset (robot_commands (snd (fst (run_from inputs st))))
  /\ ~ In ABORT_EPISODE (ds_commands (snd (fst (run_from inputs st)))).
Proof.
  revert st. induction inputs as [|inp rest IH]; intros st U; cbn [run_from].
  - cbn. auto.
  - destruct (should_stop_value inp); [cbn; auto|].
    destruct (tick inp st) as [[st1 ev1] r1] eqn:T.
    pose proof (tick_views _ _ _ _ _ T) as (_ & _ & _ & _ & _ & _ & _ & _ & V).
    destruct (V U) as (Ht & Ha & Hr).
    destruct r1 as [e|]; [cbn; auto|].
    assert (U1 : umi_mode (tracker st1) = true) by now rewrite Ht.
    specialize (IH st1 U1).
    destruct (run_from rest st1) as [[st2 ev2] r2]. cbn [fst snd] in *.
    destruct IH as (I1 & I2 & I3).
    rewrite robot_commands_app, ds_commands_app.
    repeat apply conj.
    + now rewrite I1.
    + intro X. apply in_app_or in X. tauto.
    + intro X. apply in_app_or in X. tauto.
Qed.

(** X15: in passthrough mode the loop never resets the robot and never aborts
    an episode, whatever the buttons do, and its tracker stays engaged. *)
Theorem passthrough_run_never_resets (inputs : list TickInput) :
  let out := run None inputs in
  tracker (fst (fst out)) = Tracker_init None
  /\ on (tracker (fst (fst out))) = true
  /\ ~ In Reset (robot_commands (snd (fst out)))
  /\ ~ In ABORT_EPISODE (ds_commands (snd (fst out))).
Proof.
  destruct (run_from_passthrough inputs (run_init None) eq_refl)
    as (Ht & Hr & Ha).
  cbv zeta. unfold run. rewrite Ht. repeat apply conj; auto.
Qed.


End LoopTraces.

Section LoopEdgeRuns.
Import Scenario EdgeCases.


(** The one sleep of the tick on which the stick goes down. *)
Lemma tick_yields_once_witness :
  sleeps (events (tick press_stick while_recording)) = [1 # 1000].
Proof.
  exact (proj1 (tick_yields_once press_stick while_recording
                  (final_state (tick press_stick while_recording))
                  (events (tick press_stick while_recording)) eq_refl)).
Defined.

(** A goes down before any robot state has arrived. *)
Lemma engage_without_robot_state_witness :
  on (tracker (final_state (tick press_A_without_robot_state start))) = false
  /\ events (tick press_A_without_robot_state start) = [YieldSleep (1 # 1000)].
Proof.
  rewrite (engage_without_robot_state press_A_without_robot_state start
             (right_frame 0 0 1 0)
             (fst (_parse_buttons (right_frame 0 0 1 0) (button_handler start)))
             eq_refl eq_refl eq_refl eq_refl eq_refl eq_refl).
  split; reflexivity.
Defined.

(** B pressed, then the stop signal, then more presses. *)
Lemma run_stops_at_stop_signal_witness :
  run_from ([press_B] ++ stop_signal :: [release_all; press_B]) start
  = run_from [press_B] start.
Proof.
  exact (run_stops_at_stop_signal [press_B] [release_all; press_B] stop_signal
           start eq_refl).
Defined.


End LoopEdgeRuns.

(* ================================================================== *)
(** * More on the wiring *)

Module WireOutcomes.
Import Wire WireFacts.

(** The loop over registered camera signals: it goes through, making the
    connection of each camera in turn, when every camera has a receiver,
    and raises [ValueError] otherwise. *)
Lemma wire_cameras_outcome (policy : Policy) (agent : DsWriterAgent)
    (gui : option Gui) (cams : list (string * Emitter)) (w : World) :
  (forall n em, In (n, em) cams -> In n (signals agent)) ->
  wire_cameras policy (Some agent) gui cams w
  = if forallb (has_receiver policy (port agent) gui) cams
    then (w ++ map (camera_connection policy (port agent) gui) cams, inr tt)
    else (fst (wire_cameras policy (Some agent) gui cams w),
          inl (ValueError no_receivers_msg)).
Proof.
  revert w. induction cams as [|[name e] cams IH]; intros w Hreg.
  - cbn. now rewrite app_nil_r.
  - cbn [wire_cameras forallb map].
    unfold bind at 1 3.
    rewrite camera_receivers_registered
      by (eapply Hreg; left; reflexivity).
    unfold has_receiver at 1, camera_connection at 1. cbn [fst snd].
    destruct (connect_camera_cases e
                (declared_receivers policy (Some (port agent)) gui name) w)
      as (Hnil & Hone & Hmany).
    destruct (declared_receivers policy (Some (port agent)) gui name)
      as [|r [|r' rs]] eqn:D.
    + unfold bind. rewrite (Hnil eq_refl). reflexivity.
    + unfold bind at 1 2. rewrite (Hone r eq_refl). cbn [andb].
      rewrite IH by (intros n em H; eapply Hreg; right; exact H).
      destruct (forallb _ cams); cbn [fst];
        rewrite <- ?app_assoc; reflexivity.
    + unfold bind at 1 2. rewrite Hmany by (cbn; lia). cbn [andb].
      rewrite IH by (intros n em H; eapply Hreg; right; exact H).
      destruct (forallb _ cams); cbn [fst];
        rewrite <- ?app_assoc; reflexivity.
Qed.

Lemma wire_agent_signals (make_port : string -> Receiver)
    (writer : DatasetWriter) (time_mode : TimeMode) (names : list string) :
  signals
    (add_signal
       (add_signal
          (add_signal
             (add_signal
                (fold_left add_signal names
                   (mkDsWriterAgent writer time_mode make_port []))
                "target_grip") "robot_commands") "robot_state") "grip")
  = names ++ ["target_grip"; "robot_commands"; "robot_state"; "grip"].
Proof.
  rewrite !signals_add_signal.
  rewrite (proj1 (add_signals _ _)). cbn [signals app].
  now rewrite <- !app_assoc.
Qed.

(** [wire] with a robot arm, a dataset writer and cameras, up to the
    camera loop. *)
Lemma wire_with_writer (make_port : string -> Receiver) (policy : Policy)
    (writer : DatasetWriter) (cams : list (string * Emitter)) (arm : RobotArm)
    (gripper : option Gripper) (gui : option Gui) (time_mode : TimeMode)
    (w : World) :
  exists agent,
    port agent = make_port
    /\ signals agent
       = map fst cams ++ ["target_grip"; "robot_commands"; "robot_state"; "grip"]
    /\ wire make_port policy (Some writer) (Some cams) (Some arm) gripper gui
            time_mode w
       = bind (wire_cameras policy (Some agent) gui cams)
              (fun _ => ret (Some agent))
              (w ++ arm_connections policy arm gripper
                 ++ recorder_connections make_port policy arm gripper).
Proof.
  unfold wire. cbv zeta.
  destruct (wire_agent make_port writer time_mode (map fst cams))
    as (Hp & _ & Hin).
  pose proof (wire_agent_signals make_port writer time_mode (map fst cams))
    as Hs.
  set (agent :=
         add_signal
           (add_signal
              (add_signal
                 (add_signal
                    (fold_left add_signal (map fst cams)
                       (mkDsWriterAgent writer time_mode make_port []))
                    "target_grip") "robot_commands") "robot_state") "grip")
    in *.
  exists agent. split; [exact Hp|]. split; [exact Hs|].
  rewrite bind_getattr, bind_connect, bind_connect.
  unfold arm_connections, recorder_connections.
  destruct gripper as [g|].
  - rewrite bind_assoc, !bind_connect, bind_getattr. fold agent.
    rewrite !Hin by (cbn; tauto).
    rewrite bind_getitem, bind_connect, bind_getitem, bind_connect,
            bind_getitem, bind_connect.
    rewrite bind_assoc, bind_getitem, bind_connect.
    destruct cams as [|c cams']; rewrite <- !app_assoc; reflexivity.
  - rewrite bind_ret, bind_getattr. fold agent.
    rewrite !Hin by (cbn; tauto).
    rewrite bind_getitem, bind_connect, bind_getitem, bind_connect,
            bind_getitem, bind_connect, bind_ret.
    destruct cams as [|c cams']; rewrite <- !app_assoc; reflexivity.
Qed.

Lemma has_receiver_false (policy : Policy) (agent_port : string -> Receiver)
    (gui : option Gui) (cams : list (string * Emitter)) :
  forallb (has_receiver policy agent_port gui) cams = false <->
  exists name em,
    In (name, em) cams
    /\ declared_receivers policy (Some agent_port) gui name = [].
Proof.
  split.
  - intro H.
    destruct (forallb (has_receiver policy agent_port gui) cams) eqn:F;
      [discriminate|].
    clear H. induction cams as [|[name em] cams IH]; [discriminate|].
    cbn [forallb] in F. apply andb_false_iff in F. destruct F as [F|F].
    + exists name, em. split; [now left|].
      unfold has_receiver in F. cbn [fst] in F.
      destruct (declared_receivers policy (Some agent_port) gui name);
        [reflexivity | discriminate].
    + destruct (IH F) as (n & e & Hin & Hd). exists n, e. split; [now right|auto].
  - intros (name & em & Hin & Hd).
    destruct (forallb (has_receiver policy agent_port gui) cams) eqn:F;
      [|reflexivity].
    rewrite forallb_forall in F. specialize (F _ Hin).
    unfold has_receiver in F. cbn [fst] in F. rewrite Hd in F. discriminate.
Qed.

(** The result of [wire], case by case. *)
Lemma wire_outcome (make_port : string -> Receiver) (policy : Policy)
    (dataset_writer : option DatasetWriter)
    (cameras : option (list (string * Emitter)))
    (robot_arm : option RobotArm) (gripper : option Gripper)
    (gui : option Gui) (time_mode : TimeMode) (w : World) :
  match robot_arm, dataset_writer, cameras with
  | None, _, _ =>
      wire make_port policy dataset_writer cameras robot_arm gripper gui
           time_mode w = (w, inl AttributeError)
  | Some arm, None, _ =>
      wire make_port policy dataset_writer cameras robot_arm gripper gui
           time_mode w = (w ++ arm_connections policy arm gripper, inr None)
  | Some arm, Some _, None =>
      wire make_port policy dataset_writer cameras robot_arm gripper gui
           time_mode w
      = (w ++ arm_connections policy arm gripper, inl AttributeError)
  | Some arm, Some _, Some cams =>
      exists agent,
        port agent = make_port
        /\ signals agent
           = map fst cams
             ++ ["target_grip"; "robot_commands"; "robot_state"; "grip"]
        /\ if forallb (has_receiver policy make_port gui) cams
           then wire make_port policy dataset_writer cameras robot_arm gripper
                     gui time_mode w
                = (w ++ arm_connections policy arm gripper
                     ++ recorder_connections make_port policy arm gripper
                     ++ map (camera_connection policy make_port gui) cams,
                   inr (Some agent))
           else snd (wire make_port policy dataset_writer cameras robot_arm
                          gripper gui time_mode w)
                = inl (ValueError no_receivers_msg)
  end.
Proof.
  destruct robot_arm as [arm|]; [|reflexivity].
  destruct dataset_writer as [writer|].
  - destruct cameras as [cams|].
    + destruct (wire_with_writer make_port policy writer cams arm gripper gui
                  time_mode w) as (agent & Hp & Hs & ->).
      exists agent. split; [exact Hp|]. split; [exact Hs|].
      assert (Hreg : forall n em, In (n, em) cams -> In n (signals agent)).
      { intros n em H. rewrite Hs. apply in_or_app. left.
        change n with (fst (n, em)). now apply in_map. }
      unfold bind.
      rewrite (wire_cameras_outcome policy agent gui cams _ Hreg), Hp.
      destruct (forallb (has_receiver policy make_port gui) cams).
      * unfold ret. now rewrite <- !app_assoc.
      * reflexivity.
    + unfold wire, arm_connections.
      rewrite bind_getattr, bind_connect, bind_connect.
      destruct gripper as [g|].
      * rewrite bind_assoc, !bind_connect. unfold bind, getattr, raise.
        now rewrite <- !app_assoc.
      * rewrite bind_ret. unfold bind, getattr, raise.
        now rewrite app_nil_r, <- !app_assoc.
  - unfold wire, arm_connections.
    rewrite bind_getattr, bind_connect, bind_connect.
    destruct gripper as [g|].
    + rewrite bind_assoc, !bind_connect. unfold ret.
      now rewrite <- !app_assoc.
    + rewrite bind_ret. unfold ret. now rewrite app_nil_r, <- !app_assoc.
Qed.

(** X17: [wire] raises [AttributeError] exactly when there is no robot arm, or
    there is a dataset writer but no camera dict; it raises [ValueError]
    exactly when arm, writer and cameras are given and some camera has no
    receiver left after the fake ones are filtered out; it raises nothing
    else. *)
Theorem wire_raises_exactly (make_port : string -> Receiver) (policy : Policy)
    (dataset_writer : option DatasetWriter)
    (cameras : option (list (string * Emitter)))
    (robot_arm : option RobotArm) (gripper : option Gripper)
    (gui : option Gui) (time_mode : TimeMode) (w : World) :
  let raised :=
    snd (wire make_port policy dataset_writer cameras robot_arm gripper gui
              time_mode w) in
  (raised = inl AttributeError <->
   robot_arm = None \/ (dataset_writer <> None /\ cameras = None))
  /\ (raised = inl (ValueError no_receivers_msg) <->
      robot_arm <> None /\ dataset_writer <> None
      /\ exists cams name em,
           cameras = Some cams /\ In (name, em) cams
           /\ declared_receivers policy (Some make_port) gui name = [])
  /\ (forall e, raised = inl e ->
      e = AttributeError \/ e = ValueError no_receivers_msg).
Proof.
  pose proof (wire_outcome make_port policy dataset_writer cameras robot_arm
                gripper gui time_mode w) as O.
  destruct robot_arm as [arm|].
  - destruct dataset_writer as [writer|].
    + destruct cameras as [cams|].
      * destruct O as (agent & _ & _ & O).
        pose proof (has_receiver_false policy make_port gui cams) as F.
        destruct (forallb (has_receiver policy make_port gui) cams).
        -- rewrite O. cbn [snd]. repeat apply conj; try discriminate.
           ++ intros [X|[_ X]]; discriminate.
           ++ intros (_ & _ & cams' & name & em & E & Hin & Hd).
              inversion E; subst cams'.
              assert (X : true = false) by (apply F; eauto). discriminate.
        -- cbv zeta. rewrite O. repeat apply conj; try discriminate.
           ++ intros [X|[_ X]]; discriminate.
           ++ intros _. repeat split; try discriminate.
              destruct (proj1 F eq_refl) as (name & em & Hin & Hd).
              exists cams, name, em. auto.
           ++ reflexivity.
           ++ intros e E. inversion E. now right.
      * rewrite O. cbn [snd]. repeat apply conj; try discriminate.
        -- intros _. right. split; [discriminate | reflexivity].
        -- reflexivity.
        -- intros (_ & _ & cams & name & em & E & _). discriminate.
        -- intros e E. inversion E. now left.
    + rewrite O. cbn [snd]. repeat apply conj; try discriminate.
      * intros [X|[X _]]; [discriminate | now destruct X].
      * intros (_ & X & _). now destruct X.
  - rewrite O. cbn [snd]. repeat apply conj; try discriminate.
    + intros _. now left.
    + reflexivity.
    + intros (X & _). now destruct X.
    + intros e E. inversion E. now left.
Qed.

(** X18: when arm, writer and cameras are given and every camera has a receiver
    left, [wire] builds exactly this graph, in this order: the arm and
    gripper connections, the recorder's fixed inputs, then one connection
    per camera; and it returns a recorder on which the camera signals and
    then target_grip, robot_commands, robot_state and grip are registered
    ([grip] also when there is no gripper). *)
Theorem wire_builds_the_graph (make_port : string -> Receiver) (policy : Policy)
    (writer : DatasetWriter) (cams : list (string * Emitter)) (arm : RobotArm)
    (gripper : option Gripper) (gui : option Gui) (time_mode : TimeMode)
    (w : World) :
  forallb (has_receiver policy make_port gui) cams = true ->
  exists agent,
    wire make_port policy (Some writer) (Some cams) (Some arm) gripper gui
         time_mode w
    = (w ++ arm_connections policy arm gripper
         ++ recorder_connections make_port policy arm gripper
         ++ map (camera_connection policy make_port gui) cams,
       inr (Some agent))
    /\ signals agent
       = map fst cams ++ ["target_grip"; "robot_commands"; "robot_state"; "grip"]
    /\ port agent = make_port.
Proof.
  intro F.
  destruct (wire_outcome make_port policy (Some writer) (Some cams) (Some arm)
              gripper gui time_mode w) as (agent & Hp & Hs & O).
  rewrite F in O. exists agent. auto.
Qed.

(** X19: with recorder ports that are real receivers [wire] cannot fail for want
    of receivers: given arm, writer and cameras it returns the recorder,
    and every camera has a connection that reaches its recorder port. *)
Theorem real_recorder_ports_record_every_camera
    (make_port : string -> Receiver) (policy : Policy)
    (writer : DatasetWriter) (cams : list (string * Emitter)) (arm : RobotArm)
    (gripper : option Gripper) (gui : option Gui) (time_mode : TimeMode)
    (w : World) :
  (forall name, is_FakeReceiver (make_port name) = false) ->
  exists agent world,
    wire make_port policy (Some writer) (Some cams) (Some arm) gripper gui
         time_mode w
    = (world, inr (Some agent))
    /\ forall name em, In (name, em) cams ->
         exists c, In c world /\ connection_emitter c = em
                   /\ In (make_port name) (connection_receivers c).
Proof.
  intro Hreal.
  assert (Hin : forall name,
             In (make_port name)
                (declared_receivers policy (Some make_port) gui name)).
  { intro name. unfold declared_receivers. apply filter_In. split.
    - apply in_or_app. right. apply in_or_app. left. now left.
    - now rewrite Hreal. }
  assert (F : forallb (has_receiver policy make_port gui) cams = true).
  { apply forallb_forall. intros [name em] _. unfold has_receiver. cbn [fst].
    specialize (Hin name).
    destruct (declared_receivers policy (Some make_port) gui name);
      [destruct Hin | reflexivity]. }
  destruct (wire_outcome make_port policy (Some writer) (Some cams) (Some arm)
              gripper gui time_mode w) as (agent & _ & _ & O).
  rewrite F in O. eexists. eexists. split; [exact O|].
  intros name em H.
  exists (camera_connection policy make_port gui (name, em)).
  split; [|split].
  - apply in_or_app. right. apply in_or_app. right. apply in_or_app. right.
    now apply in_map.
  - unfold camera_connection. cbn [fst snd].
    destruct (declared_receivers policy (Some make_port) gui name)
      as [|r [|r' rs]]; reflexivity.
  - unfold camera_connection. cbn [fst snd]. specialize (Hin name).
    destruct (declared_receivers policy (Some make_port) gui name)
      as [|r [|r' rs]]; cbn [connection_receivers]; exact Hin.
Qed.

Lemma camera_receivers_filtered (policy : Policy) (agent : option DsWriterAgent)
    (gui : option Gui) (name : string) (w : World) :
  fst (camera_receivers policy agent gui name w) = w
  /\ match snd (camera_receivers policy agent gui name w) with
     | inl e => e = KeyError
     | inr rs => forallb (fun r => negb (is_FakeReceiver r)) rs = true
     end.
Proof.
  unfold camera_receivers, bind, getitem, ret, raise.
  destruct agent as [a|]; [destruct (inputs a name)|]; cbn; split; auto;
    apply forallb_forall; intros x H; apply filter_In in H; tauto.
Qed.

(** X20: whatever the recorder and the GUI, and whether the loop goes through
    or raises, the camera loop only adds connections, at most one per
    camera, none of them to a fake receiver and every broadcast to two
    receivers or more. *)
Theorem camera_connections_skip_fake_receivers
    (policy : Policy) (agent : option DsWriterAgent) (gui : option Gui)
    (cams : list (string * Emitter)) (w : World) :
  exists added,
    fst (wire_cameras policy agent gui cams w) = w ++ added
    /\ forallb camera_connection_ok added = true
    /\ (List.length added <= List.length cams)%nat.
Proof.
  revert w. induction cams as [|[name e] cams IH]; intro w.
  - exists []. cbn. now rewrite app_nil_r.
  - cbn [wire_cameras]. unfold bind at 1.
    destruct (camera_receivers_filtered policy agent gui name w) as [Hw Hr].
    destruct (camera_receivers policy agent gui name w) as [w0 [x|rs]].
    + cbn [fst] in *. subst w0. exists []. cbn. rewrite app_nil_r.
      repeat split; auto. lia.
    + cbn [fst snd] in *. subst w0. unfold bind.
      unfold connect_camera, connect_broadcast, connect, raise.
      destruct (1 <? List.length rs)%nat eqn:L1.
      * destruct (IH (w ++ [ConnectBroadcast e rs])) as (ext & E & Hok & Hlen).
        exists (ConnectBroadcast e rs :: ext).
        rewrite E, <- app_assoc. cbn [app forallb camera_connection_ok List.length].
        apply Nat.ltb_lt in L1.
        assert (L2 : (2 <=? List.length rs)%nat = true) by (apply Nat.leb_le; lia).
        rewrite L2, Hr, Hok. repeat split; auto. lia.
      * destruct (List.length rs =? 1)%nat.
        -- destruct rs as [|r rs].
           ++ exists []. cbn. rewrite app_nil_r. repeat split; auto. lia.
           ++ destruct (IH (w ++ [Connect e r])) as (ext & E & Hok & Hlen).
              exists (Connect e r :: ext).
              rewrite E, <- app_assoc.
              cbn [app forallb camera_connection_ok List.length].
              cbn [forallb] in Hr. apply andb_prop in Hr. destruct Hr as [Hr _].
              rewrite Hr, Hok. repeat split; auto. lia.
        -- exists []. cbn. rewrite app_nil_r. repeat split; auto. lia.
Qed.

Section WireRuns.
Import WireScenario.

(** Two cameras, a recorder and a GUI: eight connections, the cameras
    broadcast to the recorder and the GUI. *)
Lemma wire_builds_the_graph_witness :
  exists agent,
    with_recorder
    = ([ Connect "policy.robot_commands" (real "arm.commands");
         Connect "arm.state" (real "policy.robot_state");
         Connect "policy.robot_commands" (real "ds_agent.inputs.robot_commands");
         Connect "policy.target_grip" (real "ds_agent.inputs.target_grip");
         Connect "arm.state" (real "ds_agent.inputs.robot_state");
         ConnectBroadcast "camera_left.frame"
           [real "ds_agent.inputs.image.left"; real "gui.cameras.image.left"];
         ConnectBroadcast "camera_right.frame"
           [real "ds_agent.inputs.image.right"; real "gui.cameras.image.right"] ],
       inr (Some agent))
    /\ signals agent
       = ["image.left"; "image.right";
          "target_grip"; "robot_commands"; "robot_state"; "grip"].
Proof.
  destruct (wire_builds_the_graph agent_port policy writer two_cameras arm None
              (Some gui) CLOCK [] eq_refl) as (agent & E & Hs & _).
  exists agent. split; [exact E | exact Hs].
Defined.

(** Real recorder ports: the right camera reaches its recorder port. *)
Lemma real_recorder_ports_record_every_camera_witness :
  exists c,
    In c (fst with_recorder)
    /\ connection_emitter c = "camera_right.frame"
    /\ In (agent_port "image.right") (connection_receivers c).
Proof.
  destruct (real_recorder_ports_record_every_camera agent_port policy writer
              two_cameras arm None (Some gui) CLOCK [] (fun _ => eq_refl))
    as (agent & world & E & H).
  unfold with_recorder. rewrite E. cbn [fst].
  apply (H "image.right" "camera_right.frame"). right. now left.
Defined.

(** A dataset writer but no camera dict. *)
Lemma wire_raises_exactly_witness :
  snd (wire agent_port policy (Some writer) None (Some arm) None None CLOCK [])
  = inl AttributeError.
Proof.
  apply (proj1 (wire_raises_exactly agent_port policy (Some writer) None
                  (Some arm) None None CLOCK [])).
  right. split; [discriminate | reflexivity].
Defined.
End WireRuns.

End WireOutcomes.

(* ================================================================== *)
(** * The serializer of controller positions *)

Module SerializerFacts.
Import Serializer.

Section Facts.
Context {G : Geometry} {A : Type} (transform_3d : Transform3D -> A).

Lemma dict_get_absent {V : Type} (d : Dict V) (key : string) :
  ~ In key (map fst d) -> dict_get d key = None.
Proof.
  induction d as [|[k v] d IH]; intro H; [reflexivity|].
  cbn in *. destruct (String.eqb_spec k key) as [E|E].
  - exfalso. apply H. now left.
  - apply IH. intro X. apply H. now right.
Qed.

Lemma dict_set_new {V : Type} (d : Dict V) (key : string) (v : V) :
  ~ In key (map fst d) -> dict_set d key v = d ++ [(key, v)].
Proof.
  induction d as [|[k v0] d IH]; intro H; [reflexivity|].
  cbn in *. destruct (String.eqb_spec k key) as [E|E].
  - exfalso. apply H. now left.
  - rewrite IH; [reflexivity|]. intro X. apply H. now right.
Qed.

Lemma dotted_injective (a b : string) :
  ("." ++ a)%string = ("." ++ b)%string -> a = b.
Proof. cbn. intro H. now inversion H. Qed.

Lemma present_keys (items : list (string * option Transform3D)) (side : string) :
  In ("." ++ side)%string (map fst (present transform_3d items)) ->
  In side (map fst items).
Proof.
  induction items as [|[s [p|]] items IH]; cbn [present map fst In]; intro H.
  - destruct H.
  - destruct H as [H|H].
    + left. now apply dotted_injective.
    + right. now apply IH.
  - right. now apply IH.
Qed.

(** The loop, for a dict with each key once and a result so far that has
    none of the keys to come. *)
Lemma serialize_items_appends (items : list (string * option Transform3D))
    (res : Dict A) :
  NoDup (map fst items) ->
  (forall side, In side (map fst items) ->
                ~ In ("." ++ side)%string (map fst res)) ->
  serialize_items transform_3d items res = res ++ present transform_3d items.
Proof.
  revert res. induction items as [|[s [p|]] items IH]; intros res Hnd Hfresh.
  - cbn. now rewrite app_nil_r.
  - cbn [serialize_items present]. cbn [map fst] in Hnd.
    inversion Hnd as [|? ? Hs Hnd']; subst.
    rewrite dict_set_new by (apply Hfresh; now left).
    rewrite IH; [now rewrite <- app_assoc | exact Hnd' |].
    intros side Hin X. rewrite map_app in X. apply in_app_or in X.
    destruct X as [X|X].
    + apply (Hfresh side); [now right | exact X].
    + cbn in X. destruct X as [X|[]].
      apply dotted_injective in X. subst. contradiction.
  - cbn [serialize_items present]. cbn [map fst] in Hnd.
    inversion Hnd as [|? ? Hs Hnd']; subst.
    apply IH; [exact Hnd'|].
    intros side Hin. apply Hfresh. now right.
Qed.

Lemma dict_get_present (items : list (string * option Transform3D))
    (side : string) :
  NoDup (map fst items) ->
  dict_get (present transform_3d items) ("." ++ side)%string
  = match dict_get items side with
    | Some (Some p) => Some (transform_3d p)
    | _ => None
    end.
Proof.
  induction items as [|[s [p|]] items IH]; intro Hnd; [reflexivity| |];
    cbn [map fst] in Hnd; inversion Hnd as [|? ? Hs Hnd']; subst;
    cbn [present dict_get].
  - change (String.eqb ("." ++ s) ("." ++ side))%string
      with (String.eqb s side).
    destruct (String.eqb_spec s side); [reflexivity | now apply IH].
  - destruct (String.eqb_spec s side) as [E|E]; [|now apply IH].
    subst. apply dict_get_absent. intro X. apply present_keys in X.
    contradiction.
Qed.

(** X21: the serializer writes one entry per controller that has a position,
    in the order of the dict, under the side's name with a dot in front;
    sides whose position is [None] leave no entry, so an empty dict or one
    with no positions gives an empty result. *)
Theorem serializer_keeps_present_sides
    (controller_positions : Dict (option Transform3D)) :
  NoDup (map fst controller_positions) ->
  controller_positions_serializer transform_3d controller_positions
  = present transform_3d controller_positions.
Proof.
  intro Hnd. unfold controller_positions_serializer.
  rewrite serialize_items_appends; [reflexivity | exact Hnd |].
  intros side _ [].
Qed.

(** X22: looking a side up in the serialized dict: under "." followed by the
    side's name there is the serialized pose of that side if it has one,
    and nothing if the side is missing or its position is [None]. *)
Theorem serializer_lookup
    (controller_positions : Dict (option Transform3D)) (side : string) :
  NoDup (map fst controller_positions) ->
  dict_get (controller_positions_serializer transform_3d controller_positions)
           ("." ++ side)%string
  = match dict_get controller_positions side with
    | Some (Some p) => Some (transform_3d p)
    | _ => None
    end.
Proof.
  intro Hnd. unfold controller_positions_serializer.
  rewrite serialize_items_appends; [now apply dict_get_present | exact Hnd |].
  intros s _ [].
Qed.
End Facts.

(** The left controller is not tracked, the right one is. *)
Lemma serializer_keeps_present_sides_witness :
  controller_positions_serializer (G := Lattice.geometry) translation
    [("left", None); ("right", Some Scenario.controller_pose)]
  = [(".right", (1, 2, 3)%Z)].
Proof.
  apply (serializer_keeps_present_sides (G := Lattice.geometry) translation
           [("left", None); ("right", Some Scenario.controller_pose)]).
  repeat constructor; cbn; intuition discriminate.
Defined.

Lemma serializer_lookup_witness :
  dict_get
    (controller_positions_serializer (G := Lattice.geometry) translation
       [("left", None); ("right", Some Scenario.controller_pose)])
    ".left"
  = None.
Proof.
  apply (serializer_lookup (G := Lattice.geometry) translation
           [("left", None); ("right", Some Scenario.controller_pose)] "left").
  repeat constructor; cbn; intuition discriminate.
Defined.

End SerializerFacts.

(* ================================================================== *)
(** * The wiring of data collection *)

Module CollectionWiringFacts.
Import Wire WireFacts WireOutcomes CollectionWiring.

Section Facts.
Variable wrench_to_level : Emitter -> Emitter.
Variable adapter_array : Receiver -> Receiver.
Variable command : DsWriterAgent -> Receiver.
Variable make_port : string -> Receiver.

Lemma inputs_just_added (agent : DsWriterAgent) (name : string) :
  inputs (add_signal agent name) name = Some (port agent name).
Proof.
  rewrite inputs_registered; [reflexivity|].
  rewrite signals_add_signal. apply in_or_app. right. now left.
Qed.

(** [_wire], case by case. *)
Lemma collection_wire_outcome (ds_agent : option DsWriterAgent)
    (dc : DataCollection) (webxr : WebXR) (robot_arm : option RobotArm)
    (sound : option Sound) (w : World) :
  _wire wrench_to_level command ds_agent dc webxr robot_arm sound w
  = (w ++ match sound, robot_arm with
          | Some s, None =>
              [ Connect (controller_positions webxr)
                        (controller_positions_receiver dc);
                Connect (buttons webxr) (buttons_receiver dc);
                Connect (sound_emitter dc) (wav_path s) ]
          | _, _ =>
              collection_connections wrench_to_level command ds_agent dc webxr
                                     robot_arm sound
          end,
     match sound, robot_arm with
     | Some _, None => inl AttributeError
     | _, _ =>
         inr (option_map (fun a => add_signal a "controller_positions") ds_agent)
     end).
Proof.
  unfold _wire, collection_connections.
  rewrite !bind_connect.
  destruct sound as [s|].
  - rewrite bind_assoc, bind_connect.
    destruct robot_arm as [arm|].
    + rewrite bind_assoc, bind_getattr, bind_connect.
      destruct ds_agent as [agent|].
      * rewrite inputs_just_added, bind_getitem, !bind_connect.
        unfold ret. cbn [option_map]. now rewrite <- !app_assoc.
      * unfold ret. cbn [option_map]. now rewrite app_nil_r, <- !app_assoc.
    + unfold bind, getattr, raise. now rewrite <- !app_assoc.
  - rewrite bind_ret.
    destruct ds_agent as [agent|].
    + rewrite inputs_just_added, bind_getitem, !bind_connect.
      unfold ret. cbn [option_map].
      destruct robot_arm; now rewrite <- !app_assoc.
    + unfold ret. cbn [option_map].
      destruct robot_arm; now rewrite app_nil_r, <- !app_assoc.
Qed.

(** X23: [_wire] fails only for want of a robot arm when there is a sound
    system, with [AttributeError] and after three connections; it never
    fails on the recorder's [controller_positions] input, which it
    registers itself; when it goes through it has made the connections of
    [collection_connections] and hands back the recorder with
    [controller_positions] registered last. *)
Theorem collection_wire_raises_exactly (ds_agent : option DsWriterAgent)
    (dc : DataCollection) (webxr : WebXR) (robot_arm : option RobotArm)
    (sound : option Sound) (w : World) :
  let out := _wire wrench_to_level command ds_agent dc webxr robot_arm sound w in
  (snd out = inl AttributeError <-> sound <> None /\ robot_arm = None)
  /\ (forall e, snd out = inl e ->
      e = AttributeError /\ List.length (fst out) = (List.length w + 3)%nat)
  /\ (forall r, snd out = inr r ->
      fst out = w ++ collection_connections wrench_to_level command ds_agent dc
                       webxr robot_arm sound
      /\ r = option_map (fun a => add_signal a "controller_positions") ds_agent
      /\ match r with
         | Some agent =>
             exists agent0, ds_agent = Some agent0
               /\ signals agent = signals agent0 ++ ["controller_positions"]
         | None => ds_agent = None
         end).
Proof.
  cbv zeta. rewrite collection_wire_outcome. cbn [fst snd].
  destruct sound as [s|]; destruct robot_arm as [arm|];
    repeat apply conj; try discriminate;
    try (intros [X Y]; congruence);
    try (intros e E; inversion E; subst; split; [reflexivity|];
         rewrite length_app; reflexivity);
    try (intros _; split; [discriminate | reflexivity]);
    try (intros r E; inversion E; subst; split; [reflexivity|];
         split; [reflexivity|];
         destruct ds_agent as [a|]; cbn [option_map];
         [exists a; split; [reflexivity | apply signals_add_signal]
         | reflexivity]).
Qed.


(** The wiring of [main] with a robot arm, when every camera has a
    receiver left (which matters only with a dataset writer). *)
Lemma main_wiring_outcome (arm : RobotArm) (gripper : option Gripper)
    (webxr : WebXR) (sound : option Sound)
    (cameras : option (list (string * Emitter)))
    (dataset_writer : option DatasetWriter) (stream : option string)
    (dc : DataCollection) (w : World) :
  (dataset_writer <> None ->
   forallb (has_receiver (as_policy dc) make_port None) (emitters_of cameras)
   = true) ->
  exists recorder,
    match dataset_writer with
    | None => recorder = None
    | Some _ =>
        exists agent,
          recorder = Some agent /\ port agent = make_port
          /\ signals agent
             = map fst (emitters_of cameras)
               ++ ["target_grip"; "robot_commands"; "robot_state"; "grip"]
    end
    /\ main_wiring wrench_to_level adapter_array command make_port (Some arm)
                   gripper webxr sound cameras dataset_writer stream dc w
       = let made :=
           w ++ arm_connections (as_policy dc) arm gripper
             ++ match dataset_writer with
                | Some _ =>
                    recorder_connections make_port (as_policy dc) arm gripper
                    ++ map (camera_connection (as_policy dc) make_port None)
                           (emitters_of cameras)
                | None => []
                end
             ++ collection_connections wrench_to_level command recorder dc
                                       webxr (Some arm) sound in
         let result :=
           option_map (fun a => add_signal a "controller_positions") recorder in
         match stream with
         | None => (made, inr result)
         | Some name =>
             match Serializer.dict_get (emitters_of cameras) name with
             | Some e =>
                 (made ++ [Connect e (adapter_array (frame webxr))], inr result)
             | None => (made, inl KeyError)
             end
         end.
Proof.
  intro Hrec. unfold main_wiring. cbv zeta.
  pose proof (wire_outcome make_port (as_policy dc) dataset_writer
                (Some (emitters_of cameras)) (Some arm) gripper None CLOCK w)
    as O.
  destruct dataset_writer as [writer|].
  - destruct O as (agent & Hp & Hs & O).
    rewrite Hrec in O by discriminate.
    exists (Some agent). split; [exists agent; auto|].
    unfold bind at 1. rewrite O.
    unfold bind at 1. rewrite collection_wire_outcome.
    destruct sound as [s|]; (destruct stream as [name|];
      [ destruct (Serializer.dict_get (emitters_of cameras) name) as [e|];
        [ rewrite bind_assoc, bind_getitem, bind_connect
        | unfold bind, getitem, raise ]
      | rewrite bind_ret ]);
      unfold ret; rewrite <- ?app_assoc; reflexivity.
  - exists None. split; [reflexivity|].
    unfold bind at 1. rewrite O.
    unfold bind at 1. rewrite collection_wire_outcome.
    destruct sound as [s|]; (destruct stream as [name|];
      [ destruct (Serializer.dict_get (emitters_of cameras) name) as [e|];
        [ rewrite bind_assoc, bind_getitem, bind_connect
        | unfold bind, getitem, raise ]
      | rewrite bind_ret ]);
      unfold ret; cbn [app]; rewrite <- ?app_assoc; reflexivity.
Qed.

Lemma real_ports_have_receiver (policy : Policy) (gui : option Gui)
    (cams : list (string * Emitter)) :
  (forall name, is_FakeReceiver (make_port name) = false) ->
  forallb (has_receiver policy make_port gui) cams = true.
Proof.
  intro Hreal. apply forallb_forall. intros [name em] _.
  unfold has_receiver, declared_receivers. cbn [fst app filter].
  rewrite Hreal. cbn [negb].
  destruct (negb (is_FakeReceiver (frames policy name))); reflexivity.
Qed.

Lemma camera_connection_unicast (policy : Policy) (name : string) (e : Emitter) :
  is_FakeReceiver (make_port name) = false ->
  is_FakeReceiver (frames policy name) = true ->
  camera_connection policy make_port None (name, e)
  = Connect e (make_port name).
Proof.
  intros Hreal Hfake.
  unfold camera_connection, declared_receivers. cbn [fst snd app filter].
  now rewrite Hreal, Hfake.
Qed.

(** X24: with recorder ports that are real receivers, the wiring of [main]
    fails in two cases only: with [AttributeError], and nothing connected,
    exactly when there is no robot arm; with [KeyError] exactly when there
    is a robot arm and the camera to stream to WebXR is not one of the
    cameras. *)
Theorem main_wiring_raises_exactly
    (robot_arm : option RobotArm) (gripper : option Gripper)
    (webxr : WebXR) (sound : option Sound)
    (cameras : option (list (string * Emitter)))
    (dataset_writer : option DatasetWriter) (stream : option string)
    (dc : DataCollection) (w : World) :
  (forall name, is_FakeReceiver (make_port name) = false) ->
  let out := main_wiring wrench_to_level adapter_array command make_port
               robot_arm gripper webxr sound cameras dataset_writer stream
               dc w in
  (snd out = inl AttributeError <-> robot_arm = None)
  /\ (robot_arm = None -> fst out = w)
  /\ (snd out = inl KeyError <->
      robot_arm <> None
      /\ exists name,
           stream = Some name
           /\ Serializer.dict_get (emitters_of cameras) name = None)
  /\ (forall e, snd out = inl e -> e = AttributeError \/ e = KeyError).
Proof.
  intros Hreal out. subst out.
  destruct robot_arm as [arm|].
  - destruct (main_wiring_outcome arm gripper webxr sound cameras
                dataset_writer stream dc w) as (recorder & _ & ->).
    { intros _. now apply real_ports_have_receiver. }
    cbv zeta.
    destruct stream as [name|];
      [destruct (Serializer.dict_get (emitters_of cameras) name) as [e|] eqn:D|];
      cbn [fst snd]; repeat apply conj; try discriminate;
      try (intros (_ & n & E & Dn); congruence);
      try (intros e' E; inversion E; now right).
    intros _. split; [discriminate|]. exists name. auto.
  - cbv zeta. unfold main_wiring. cbv zeta. unfold bind at 1. cbn.
    repeat apply conj; try discriminate; auto.
    + intros (X & _). now destruct X.
    + intros e E. inversion E. now left.
Qed.

(** X25: with a robot arm, a dataset writer and real recorder ports, [main]
    connects every camera to its recorder port by a unicast connection,
    the frames of the data collection controller being fake receivers, and
    makes no broadcast connection at all. *)
Theorem main_records_cameras_by_unicast
    (arm : RobotArm) (gripper : option Gripper)
    (webxr : WebXR) (sound : option Sound)
    (cameras : option (list (string * Emitter)))
    (writer : DatasetWriter) (stream : option string)
    (dc : DataCollection) (w : World) :
  (forall name, is_FakeReceiver (make_port name) = false) ->
  (forall name, is_FakeReceiver (frames (as_policy dc) name) = true) ->
  exists made,
    fst (main_wiring wrench_to_level adapter_array command make_port (Some arm)
           gripper webxr sound cameras (Some writer) stream dc w)
    = w ++ made
    /\ (forall name e, In (name, e) (emitters_of cameras) ->
                       In (Connect e (make_port name)) made)
    /\ (forall e rs, ~ In (ConnectBroadcast e rs) made).
Proof.
  intros Hreal Hfake.
  destruct (main_wiring_outcome arm gripper webxr sound cameras
              (Some writer) stream dc w) as (recorder & (agent & -> & _) & ->).
  { intros _. now apply real_ports_have_receiver. }
  cbv zeta.
  assert (Hmap : map (camera_connection (as_policy dc) make_port None)
                     (emitters_of cameras)
                 = map (fun c => Connect (snd c) (make_port (fst c)))
                       (emitters_of cameras)).
  { apply map_ext. intros [n e]. now apply camera_connection_unicast. }
  rewrite Hmap.
  set (cams := map (fun c => Connect (snd c) (make_port (fst c)))
                   (emitters_of cameras)).
  assert (Hcams : forall name e, In (name, e) (emitters_of cameras) ->
                                 In (Connect e (make_port name)) cams).
  { intros name e H. unfold cams.
    change (Connect e (make_port name))
      with ((fun c => Connect (snd c) (make_port (fst c))) (name, e)).
    now apply in_map. }
  assert (Hnb : forall l e rs,
             (forall c, In c l -> exists e' r, c = Connect e' r) ->
             ~ In (ConnectBroadcast e rs) l).
  { intros l e rs H X. destruct (H _ X) as (e' & r & E). discriminate. }
  assert (Hall : forall c,
    In c (arm_connections (as_policy dc) arm gripper
          ++ (recorder_connections make_port (as_policy dc) arm gripper ++ cams)
          ++ collection_connections wrench_to_level command (Some agent) dc
               webxr (Some arm) sound) ->
    exists e' r, c = Connect e' r).
  { apply Forall_forall.
    apply Forall_app; split; [|apply Forall_app; split;
                                [apply Forall_app; split|]].
    - unfold arm_connections. destruct gripper; cbn; repeat (apply Forall_cons; [eauto|]);
        apply Forall_nil.
    - unfold recorder_connections.
      destruct gripper; cbn; repeat (apply Forall_cons; [eauto|]);
        apply Forall_nil.
    - apply Forall_forall. intros c H. unfold cams in H.
      apply in_map_iff in H. destruct H as (x & <- & _). eauto.
    - unfold collection_connections.
      destruct sound; cbn; repeat (apply Forall_cons; [eauto|]);
        apply Forall_nil. }
  destruct stream as [name|];
    [destruct (Serializer.dict_get (emitters_of cameras) name) as [e|]|];
    cbn [fst]; eexists;
    (split; [rewrite <- ?app_assoc; reflexivity|]); split.
  - intros n e0 H. apply in_or_app. right. apply in_or_app. right.
    apply in_or_app. left. now apply Hcams.
  - intros e0 rs X.
    rewrite !app_assoc in X. apply in_app_or in X. destruct X as [X|X].
    + rewrite <- !app_assoc in X. apply (Hnb _ e0 rs Hall).
      rewrite <- !app_assoc. exact X.
    + destruct X as [X|[]]. discriminate.
  - intros n e0 H. apply in_or_app. right. apply in_or_app. right.
    apply in_or_app. left. now apply Hcams.
  - intros e0 rs X. apply (Hnb _ e0 rs Hall). rewrite <- !app_assoc. exact X.
  - intros n e0 H. apply in_or_app. right. apply in_or_app. right.
    apply in_or_app. left. now apply Hcams.
  - intros e0 rs X. apply (Hnb _ e0 rs Hall). rewrite <- !app_assoc. exact X.
Qed.

(** X26: without an output directory [main] wires no camera to anything but
    WebXR: with a robot arm, the graph is the arm and gripper connections,
    the connections of [_wire] without a recorder, and the connection of
    the streamed camera if one is named; no recorder comes back. *)
Theorem main_without_recorder_wires_no_camera
    (arm : RobotArm) (gripper : option Gripper)
    (webxr : WebXR) (sound : option Sound)
    (cameras : option (list (string * Emitter)))
    (stream : option string) (dc : DataCollection) (w : World) :
  main_wiring wrench_to_level adapter_array command make_port (Some arm)
              gripper webxr sound cameras None stream dc w
  = let made :=
      w ++ arm_connections (as_policy dc) arm gripper
        ++ collection_connections wrench_to_level command None dc webxr
                                  (Some arm) sound in
    match stream with
    | None => (made, inr None)
    | Some name =>
        match Serializer.dict_get (emitters_of cameras) name with
        | Some e => (made ++ [Connect e (adapter_array (frame webxr))], inr None)
        | None => (made, inl KeyError)
        end
    end.
Proof.
  destruct (main_wiring_outcome arm gripper webxr sound cameras None stream
              dc w) as (recorder & -> & ->).
  { intro X. now destruct X. }
  reflexivity.
Qed.
End Facts.
End CollectionWiringFacts.

Module CollectionRuns.
Import Wire WireScenario CollectionWiring CollectionScenario CollectionWiringFacts.

(** A sound system and no robot arm. *)
Lemma collection_wire_raises_exactly_witness :
  snd (_wire wrench_to_level command None data_collection webxr None
             (Some sound) [])
  = inl AttributeError.
Proof.
  apply (proj1 (collection_wire_raises_exactly wrench_to_level command None
                  data_collection webxr None (Some sound) [])).
  split; [discriminate | reflexivity].
Defined.

(** Streaming a camera that is not there. *)
Lemma main_wiring_raises_exactly_witness :
  snd wrong_stream = inl KeyError.
Proof.
  apply (proj1 (proj2 (proj2
           (main_wiring_raises_exactly wrench_to_level adapter_array command
              agent_port (Some arm) None webxr (Some sound) (Some two_cameras)
              None (Some "image.wrist") data_collection []
              (fun _ => eq_refl))))).
  split; [discriminate|]. exists "image.wrist". split; reflexivity.
Defined.

(** A recording session: the right camera goes to the recorder alone. *)
Lemma main_records_cameras_by_unicast_witness :
  exists made,
    fst recording_session = [] ++ made
    /\ In (Connect "camera_right.frame" (agent_port "image.right")) made.
Proof.
  destruct (main_records_cameras_by_unicast wrench_to_level adapter_array
              command agent_port arm None webxr (Some sound) (Some two_cameras)
              writer (Some "image.left") data_collection []
              (fun _ => eq_refl) (fun _ => eq_refl)) as (made & E & H & _).
  exists made. split; [exact E|].
  apply (H "image.right" "camera_right.frame"). right. now left.
Defined.

End CollectionRuns.

(* ================================================================== *)
(** * The loop with its failures *)

Section FullLoopFacts.
Context {G : Geometry} {B : ButtonHandlerOps} {A : ButtonHandlerAsserts B}.

Lemma plain_events_app (a b : list Sent) :
  plain_events (a ++ b) = plain_events a ++ plain_events b.
Proof.
  induction a as [|[e|] a IH]; cbn; [reflexivity | now rewrite IH | exact IH].
Qed.

Lemma plain_events_map (ev : list Event) : plain_events (map Plain ev) = ev.
Proof. induction ev as [|e ev IH]; cbn; [reflexivity | now rewrite IH]. Qed.

Lemma none_not_plain (ev : list Event) :
  ~ In EmitCartesianPositionOfNone (map Plain ev).
Proof.
  intro H. apply in_map_iff in H. destruct H as (e & E & _). discriminate.
Qed.

(** An iteration with no button frame is given up at once. *)
Lemma tick_full_without_buttons (i : FullInput) (st : LoopState) :
  buttons_receiver_value (seen i) = None ->
  tick_full i st = (st, [Plain (YieldSleep (1 # 1000))], None).
Proof.
  intro H. unfold tick_full, read_and_handle. rewrite H. reflexivity.
Qed.

(** An iteration whose reading and edge handling raise nothing goes on to
    line 146. *)
Lemma tick_full_goes_on (i : FullInput) (st st1 : LoopState)
    (ev1 : list Event) :
  read_and_handle (seen i) st = (st1, ev1, None) ->
  tick_full i st
  = match emit_targets_full i st1 with
    | (st2, ev2, Some f) => (st2, map Plain ev1 ++ ev2, Some f)
    | (st2, ev2, None) =>
        (st2, map Plain ev1 ++ ev2 ++ [Plain (YieldSleep (1 # 1000))], None)
    end.
Proof.
  intro H. unfold tick_full. rewrite H.
  destruct (emit_targets_full i st1) as [[st2 ev2] [f|]]; reflexivity.
Qed.

(** Where the button handler holds a value for the right trigger and the
    message, if fresh, carries the pose of the right controller,
    [tick_full] is [tick]. *)
Lemma tick_full_agrees (i : FullInput) (st : LoopState) :
  (forall st1 ev1,
      read_and_handle (seen i) st = (st1, ev1, None) ->
      has_value (button_handler st1) "right_trigger" = true
      /\ (updated (controller_positions_read (seen i)) = true ->
          right_pose i = Some (data_right (controller_positions_read (seen i))))) ->
  tick_full i st = as_full (tick (seen i) st).
Proof.
  intro H. unfold tick_full, tick, try_body.
  destruct (read_and_handle (seen i) st) as [[st1 ev1] [e|]] eqn:R.
  - destruct e; unfold as_full; cbn [option_map];
      rewrite ?map_app; reflexivity.
  - destruct (H st1 ev1 eq_refl) as [Hv Hp].
    unfold emit_targets_full, emit_targets. rewrite Hv.
    destruct (updated (controller_positions_read (seen i))).
    + rewrite (Hp eq_refl). unfold update_right.
      destruct (update (tracker st1)
                  (data_right (controller_positions_read (seen i))))
        as [t target].
      destruct (on t); unfold as_full; cbn [option_map];
        rewrite !map_app; reflexivity.
    + unfold as_full. cbn [option_map]. rewrite !map_app. reflexivity.
Qed.

(** C2, as the loop has it: on an iteration on which the button frame is
    read and parsed, the edge handling raises nothing and the button
    handler holds a value for the right trigger, exactly one grip target is
    emitted, the value of the right trigger, whether or not a fresh
    controller pose arrived and whatever becomes of it; on an iteration
    with no button frame the loop only yields its sleep, and no grip target
    is emitted. *)
Theorem grip_target_sent (i : FullInput) (st : LoopState) :
  (forall st1 ev1,
      read_and_handle (seen i) st = (st1, ev1, None) ->
      has_value (button_handler st1) "right_trigger" = true ->
      grip_targets (plain_events (snd (fst (tick_full i st))))
      = [get_value (button_handler st1) "right_trigger"])
  /\ (buttons_receiver_value (seen i) = None ->
      tick_full i st = (st, [Plain (YieldSleep (1 # 1000))], None)).
Proof.
  split; [|apply tick_full_without_buttons].
  intros st1 ev1 R Hv.
  assert (Hg : grip_targets ev1 = []).
  { unfold read_and_handle in R.
    destruct (buttons_receiver_value (seen i)) as [b|]; [|discriminate].
    destruct (_parse_buttons b (button_handler st)) as [bh [e|]];
      [discriminate|].
    now destruct (handle_edges_events _ _ _ _ _ R). }
  rewrite (tick_full_goes_on _ _ _ _ R).
  unfold emit_targets_full. rewrite Hv.
  destruct (updated (controller_positions_read (seen i))).
  - destruct (update_right (tracker st1) (right_pose i)) as [[t target]|].
    + destruct (on t); [destruct target|]; cbn [fst snd];
        rewrite !plain_events_app, plain_events_map, !grip_targets_app, Hg;
        reflexivity.
    + cbn [fst snd].
      rewrite !plain_events_app, plain_events_map, !grip_targets_app, Hg.
      reflexivity.
  - cbn [fst snd].
    rewrite !plain_events_app, plain_events_map, !grip_targets_app, Hg.
    reflexivity.
Qed.

(** C7, as the loop has it: with an operator calibration, on an iteration
    that reaches the read of the controller pose (the button frame was
    read and parsed, the edge handling raised nothing, the grip target
    went out) and finds a fresh message with a pose for the right
    controller, [update] is run, so the last mapped pose is the new one,
    whether the tracker is engaged or not; a disengaged tracker sends the
    robot no Cartesian target, an engaged one sends the target [update]
    returned; and the iteration ends normally. *)
Theorem fresh_pose_updates_tracker (i : FullInput) (st st1 : LoopState)
    (ev1 : list Event) (op p : Transform3D) :
  read_and_handle (seen i) st = (st1, ev1, None) ->
  has_value (button_handler st1) "right_trigger" = true ->
  _operator_position (tracker st1) = Some op ->
  updated (controller_positions_read (seen i)) = true ->
  right_pose i = Some p ->
  let out := tick_full i st in
  snd out = None
  /\ _teleop_t (tracker (fst (fst out))) = mapped op p
  /\ ~ In EmitCartesianPositionOfNone (snd (fst out))
  /\ (on (tracker st1) = false ->
      forall q, ~ In (CartesianPosition q)
                     (robot_commands (plain_events (snd (fst out)))))
  /\ (on (tracker st1) = true ->
      robot_commands (plain_events (snd (fst out)))
      = robot_commands ev1 ++ [CartesianPosition (snd (update (tracker st1) p))]).
Proof.
  intros R Hv Hop Hup Hp out. subst out.
  assert (Hev : robot_commands ev1 = [] \/ robot_commands ev1 = [Reset]).
  { unfold read_and_handle in R.
    destruct (buttons_receiver_value (seen i)) as [b|]; [|discriminate].
    destruct (_parse_buttons b (button_handler st)) as [bh [e|]];
      [discriminate|].
    now destruct (handle_edges_events _ _ _ _ _ R). }
  rewrite (tick_full_goes_on _ _ _ _ R).
  unfold emit_targets_full. rewrite Hv, Hup, Hp. unfold update_right.
  pose proof (update_keeps (tracker st1) p) as (_ & Kon & _).
  pose proof (update_teleop (tracker st1) op p Hop) as Kt.
  destruct (update (tracker st1) p) as [t target] eqn:U.
  cbn [fst snd] in *. rewrite <- Kon.
  destruct (on t); cbn [fst snd tracker];
    (split; [reflexivity|]); (split; [exact Kt|]);
    rewrite !plain_events_app, plain_events_map, !robot_commands_app;
    cbn [plain_events robot_commands app]; split.
  - intro H. apply in_app_or in H. destruct H as [H|H].
    + now apply none_not_plain in H.
    + cbn in H. intuition discriminate.
  - split; [discriminate | intros _; reflexivity].
  - intro H. apply in_app_or in H. destruct H as [H|H].
    + now apply none_not_plain in H.
    + cbn in H. intuition discriminate.
  - split; [|discriminate]. intros _ q H. rewrite app_nil_r in H.
    destruct Hev as [E|E]; rewrite E in H; cbn in H.
    + exact H.
    + destruct H as [H|[]]. discriminate.
Qed.

(** X7: [NoValueException] never leaves an iteration: when
    [buttons_receiver.value] raises it, or [robot_state.value] raises it
    on engage, the iteration yields its sleep and the loop goes on; an
    [IndexError] of [_parse_buttons] does leave the loop, before anything
    is emitted. *)
Theorem no_value_exception_is_caught (i : FullInput) (st : LoopState) :
  snd (tick_full i st) <> Some (Raised NoValueException)
  /\ (forall st1 ev1,
      read_and_handle (seen i) st = (st1, ev1, Some NoValueException) ->
      tick_full i st = (st1, [Plain (YieldSleep (1 # 1000))], None))
  /\ (forall buttons,
      buttons_receiver_value (seen i) = Some buttons ->
      long_enough (buttons "left") && long_enough (buttons "right") = false ->
      snd (tick_full i st) = Some (Raised IndexError)
      /\ snd (fst (tick_full i st)) = []).
Proof.
  split; [|split].
  - unfold tick_full.
    destruct (read_and_handle (seen i) st) as [[st1 ev1] [e|]] eqn:R.
    + destruct e; cbn; discriminate.
    + destruct (emit_targets_full i st1) as [[st2 ev2] [f|]] eqn:E; cbn;
        [|discriminate].
      unfold emit_targets_full in E.
      destruct (has_value (button_handler st1) "right_trigger");
        [|inversion E; discriminate].
      destruct (updated (controller_positions_read (seen i)));
        [|inversion E].
      destruct (update_right (tracker st1) (right_pose i)) as [[t target]|];
        inversion E; discriminate.
  - intros st1 ev1 R.
    pose proof (read_and_handle_views _ _ _ _ _ R)
      as (_ & _ & _ & _ & _ & _ & _ & V).
    assert (E : ev1 = []) by (apply V; discriminate). subst ev1.
    unfold tick_full. rewrite R. reflexivity.
  - intros buttons Hb Hshort.
    unfold tick_full, read_and_handle. rewrite Hb.
    pose proof (parse_buttons_raised buttons (button_handler st)) as P.
    rewrite Hshort in P.
    destruct (_parse_buttons buttons (button_handler st)) as [bh r].
    cbn [snd] in P. subst r. split; reflexivity.
Qed.

End FullLoopFacts.

(* ================================================================== *)
(** * The loop with its failures, on concrete iterations *)

Section FullLoopRuns.
Import Scenario EdgeCases FullScenario.

(** C2 does not hold on an iteration with no button frame: a fresh pose of
    the right controller is waiting, yet [buttons_receiver.value] raises,
    the rest of the body is skipped, and the iteration yields its sleep
    without a grip target. *)
Lemma no_grip_target_without_frame :
  let out := tick_full (with_pose no_buttons) start in
  buttons_receiver_value no_buttons = None
  /\ snd out = None
  /\ sent out = [Plain (YieldSleep (1 # 1000))]
  /\ grip_targets (plain_events (sent out)) = [].
Proof. repeat split. Qed.

(** The trigger held down and a fresh message without a pose for the right
    controller: the grip target goes out before [update] fails on the
    missing pose; and the iteration with no button frame. *)
Lemma grip_target_sent_witness :
  (grip_targets
     (plain_events
        (sent (tick_full (without_pose (hold_trigger fresh_message)) start)))
   = [1]
   /\ snd (tick_full (without_pose (hold_trigger fresh_message)) start)
      = Some UpdateOfNone)
  /\ tick_full (with_pose no_buttons) start
     = (start, [Plain (YieldSleep (1 # 1000))], None).
Proof.
  split; [split|].
  - exact (proj1 (grip_target_sent (without_pose (hold_trigger fresh_message))
                    start)
             (final_state (read_and_handle (hold_trigger fresh_message) start))
             (events (read_and_handle (hold_trigger fresh_message) start))
             eq_refl eq_refl).
  - reflexivity.
  - exact (proj2 (grip_target_sent (with_pose no_buttons) start) eq_refl).
Defined.

(** A frame with only the left side, before the right side was ever seen:
    [get_value] fails its assertion, nothing has been emitted, and the
    exception leaves the loop. *)
Lemma get_value_assertion_leaves_the_loop :
  let out := tick_full (with_pose left_side_only) start in
  snd out = Some AssertionError /\ sent out = [].
Proof. split; reflexivity. Qed.

(** C7 does not hold on every iteration with a fresh pose: with a
    calibration, the tracker disengaged and a fresh pose of the right
    controller waiting, an iteration with no button frame never reaches
    the read of the pose, and the last mapped pose is left as it was. *)
Lemma fresh_pose_not_seen_without_frame :
  let out := tick_full (with_pose no_buttons) start in
  _operator_position (tracker start) = Some calibration
  /\ on (tracker start) = false
  /\ updated (controller_positions_read no_buttons) = true
  /\ right_pose (with_pose no_buttons) = Some controller_pose
  /\ snd out = None
  /\ _teleop_t (tracker (state_after out)) = _teleop_t (tracker start)
  /\ _teleop_t (tracker (state_after out)) <> mapped calibration controller_pose.
Proof. repeat split. discriminate. Qed.

(** The same happens when A goes down and no robot state has arrived:
    [robot_state.value] raises, and the fresh pose is not looked at. *)
Lemma fresh_pose_not_seen_without_robot_state :
  let out := tick_full (with_pose press_A_without_robot_state) start in
  updated (controller_positions_read press_A_without_robot_state) = true
  /\ snd out = None
  /\ sent out = [Plain (YieldSleep (1 # 1000))]
  /\ _teleop_t (tracker (state_after out)) <> mapped calibration controller_pose.
Proof. repeat split. discriminate. Qed.

(** A fresh pose on an iteration that reaches the read, first with the
    tracker disengaged, then with it engaged. *)
Lemma fresh_pose_updates_tracker_witness :
  (let out := tick_full (with_pose (hold_trigger fresh_message)) start in
   on (tracker start) = false
   /\ _teleop_t (tracker (state_after out)) = mapped calibration controller_pose
   /\ forall q, ~ In (CartesianPosition q)
                     (robot_commands (plain_events (sent out))))
  /\ (let st := recording_and_tracking in
      let out := tick_full (with_pose (hold_trigger fresh_message)) st in
      on (tracker st) = true
      /\ _teleop_t (tracker (state_after out))
         = mapped calibration controller_pose
      /\ robot_commands (plain_events (sent out))
         = [CartesianPosition (snd (update (tracker st) controller_pose))]).
Proof.
  split.
  - intro out.
    destruct (fresh_pose_updates_tracker (A := EdgeDetector_asserts)
                (with_pose (hold_trigger fresh_message)) start
                (final_state (read_and_handle (hold_trigger fresh_message) start))
                (events (read_and_handle (hold_trigger fresh_message) start))
                calibration controller_pose
                eq_refl eq_refl eq_refl eq_refl eq_refl)
      as (_ & T & _ & Off & _).
    split; [reflexivity|]. split; [exact T | exact (Off eq_refl)].
  - intros st out.
    destruct (fresh_pose_updates_tracker (A := EdgeDetector_asserts)
                (with_pose (hold_trigger fresh_message)) st
                (final_state (read_and_handle (hold_trigger fresh_message) st))
                (events (read_and_handle (hold_trigger fresh_message) st))
                calibration controller_pose
                eq_refl eq_refl eq_refl eq_refl eq_refl)
      as (_ & T & _ & _ & On).
    split; [reflexivity|]. split; [exact T | exact (On eq_refl)].
Defined.

(** A goes down with no robot state: the iteration yields its sleep and
    the loop goes on.  A right side of five entries: [IndexError] leaves
    the loop with nothing emitted. *)
Lemma no_value_exception_is_caught_witness :
  (snd (tick_full (with_pose press_A_without_robot_state) start) = None
   /\ sent (tick_full (with_pose press_A_without_robot_state) start)
      = [Plain (YieldSleep (1 # 1000))])
  /\ snd (tick_full (with_pose short_right_side) start)
     = Some (Raised IndexError)
  /\ sent (tick_full (with_pose short_right_side) start) = [].
Proof.
  split.
  - rewrite (proj1 (proj2 (no_value_exception_is_caught
                             (with_pose press_A_without_robot_state) start))
               (final_state (read_and_handle press_A_without_robot_state start))
               (events (read_and_handle press_A_without_robot_state start))
               eq_refl).
    split; reflexivity.
  - exact (proj2 (proj2 (no_value_exception_is_caught
                           (with_pose short_right_side) start))
             short_frame eq_refl eq_refl).
Defined.

End FullLoopRuns.

(* ================================================================== *)
(** * The iterations of a run *)

Section IterationFacts.
Context {G : Geometry} {B : ButtonHandlerOps}.

(** The events of a run are those of its iterations, in order. *)
Lemma iterations_events (inputs : list TickInput) (st : LoopState) :
  List.concat (map snd (iterations inputs st)) = snd (fst (run_from inputs st)).
Proof.
  revert st. induction inputs as [|inp rest IH]; intro st;
    cbn [iterations run_from]; [reflexivity|].
  destruct (should_stop_value inp); [reflexivity|].
  destruct (tick inp st) as [[st1 ev1] [e|]].
  - cbn. now rewrite app_nil_r.
  - specialize (IH st1).
    destruct (run_from rest st1) as [[st2 ev2] r2]. cbn [fst snd] in *.
    cbn [map List.concat snd]. now rewrite IH.
Qed.

(** The iterations of a run take its inputs in order, from the first. *)
Lemma iterations_inputs (inputs : list TickInput) (st : LoopState) :
  exists rest, inputs = map fst (iterations inputs st) ++ rest.
Proof.
  revert st. induction inputs as [|inp rest IH]; intro st; cbn [iterations].
  - exists []. reflexivity.
  - destruct (should_stop_value inp); [now exists (inp :: rest)|].
    destruct (tick inp st) as [[st1 ev1] [e|]].
    + now exists rest.
    + destruct (IH st1) as [rest' E]. exists rest'. cbn. now rewrite <- E.
Qed.

(** X14: in a run the metadata getter is called once for every episode
    started and never otherwise, on the run as a whole and on each of its
    iterations; a start carries what the getter returned on the iteration
    that emitted it, and stops and aborts carry no metadata. *)
Theorem run_snapshots_metadata_at_start
    (inputs : list TickInput) (st : LoopState) :
  let ev := snd (fst (run_from inputs st)) in
  metadata_calls ev = episodes_started (ds_commands ev)
  /\ List.concat (map snd (iterations inputs st)) = ev
  /\ (exists rest, inputs = map fst (iterations inputs st) ++ rest)
  /\ Forall (fun it =>
               metadata_calls (snd it) = episodes_started (ds_commands (snd it))
               /\ Forall (metadata_of (fst it)) (ds_agent_commands (snd it)))
            (iterations inputs st).
Proof.
  cbv zeta.
  split; [|split; [apply iterations_events|split; [apply iterations_inputs|]]].
  - revert st. induction inputs as [|inp rest IH]; intro st; cbn [run_from].
    + reflexivity.
    + destruct (should_stop_value inp); [reflexivity|].
      destruct (tick inp st) as [[st1 ev1] r1] eqn:T.
      pose proof (tick_views _ _ _ _ _ T) as (_ & V2 & _).
      destruct r1 as [e|]; [exact V2|].
      specialize (IH st1).
      destruct (run_from rest st1) as [[st2 ev2] r2]. cbn [fst snd] in *.
      now rewrite metadata_calls_app, ds_commands_app, episodes_started_app,
                  V2, IH.
  - revert st. induction inputs as [|inp rest IH]; intro st; cbn [iterations].
    + apply Forall_nil.
    + destruct (should_stop_value inp); [apply Forall_nil|].
      destruct (tick inp st) as [[st1 ev1] r1] eqn:T.
      pose proof (tick_views _ _ _ _ _ T) as (_ & V2 & V3 & _).
      apply Forall_cons; [split; [exact V2 | exact V3]|].
      destruct r1 as [e|]; [apply Forall_nil | apply IH].
Qed.

End IterationFacts.

Section IterationRuns.
Import Scenario.

(** An episode started and stopped: the start carries the metadata of its
    own iteration, and the getter is called on that iteration only. *)
Lemma iterations_of_an_episode :
  map (fun it => (metadata_calls (snd it), ds_agent_commands (snd it)))
      (iterations [press_B; release_all; press_B] start)
  = [ (1%nat, [mkDsWriterCommand START_EPISODE task_metadata]);
      (0%nat, []);
      (0%nat, [mkDsWriterCommand STOP_EPISODE []]) ].
Proof. reflexivity. Qed.

End IterationRuns.
